(** * Personal notes manager: the note collection of [notes_frontend/app.vue]

    A shallow embedding of the [<script setup>] block of [app.vue]: the
    reactive state ([notes], [currentNoteId], [dirty]), the handlers
    ([selectNote], [createNewNote], [deleteNote], [updateCurrentNote],
    [saveCurrentNote]), the deep watcher that re-serialises [notes], and the
    part of the platform the handlers call ([JSON.stringify], [JSON.parse],
    [localStorage], [confirm], [Date.now], [Math.random]).

    Conventions.
    - A JavaScript string is its sequence of UTF-16 code units, a [list N].
    - A [number] that holds a timestamp is an integer, a [Z]; binary64
      rounding is not modelled ([Date.now] returns integers far below 2^53).
    - The answers of [confirm], the readings of [Date.now] and the digits of
      [Math.random] are arguments of the handler that asks for them.
    - [ref], [computed] and [watch] are Vue's: [notes.value] is deeply
      reactive, [currentNote.value] is the element of [notes.value] that
      [find] returns, and the job of a watcher is queued by a write it
      observes and runs when the handler that made the write has returned. *)

From Stdlib Require Import ZArith NArith List Bool Ascii String Decimal
  DecimalFacts DecimalPos DecimalN DecimalZ Sorted Lia.
From stdpp Require Import base option list.

#[local] Set Warnings "-register-all".
Local Open Scope N_scope.

(** ** JavaScript strings *)

Abbreviation jsstring := (list N).

(** A source literal as a JavaScript string. *)
Definition js (s : string) : jsstring :=
  List.map N_of_ascii (list_ascii_of_string s).

(** ** Results of an operation that may throw *)

Inductive Completion (A : Type) : Type :=
| Normal (a : A)
| SyntaxError
| OutOfFuel.
Arguments Normal {A} a.
Arguments SyntaxError {A}.
Arguments OutOfFuel {A}.

Definition bind {A B} (c : Completion A) (k : A -> Completion B) : Completion B :=
  match c with
  | Normal a => k a
  | SyntaxError => SyntaxError
  | OutOfFuel => OutOfFuel
  end.

(** ** JSON values *)

Module JSON.

(** The value [JSON.parse] builds. A number is kept as the exact decimal
    [m * 10^e] of its literal. An object lists its own properties in the
    order [Object.keys] enumerates them. *)
Inductive value : Type :=
| JNull
| JBool (b : bool)
| JNumber (m e : Z)
| JString (s : jsstring)
| JArray (elements : list value)
| JObject (properties : list (jsstring * value)).

(** *** Lexical helpers *)

Definition is_ws (c : N) : bool :=
  (c =? 9) || (c =? 10) || (c =? 13) || (c =? 32).

Fixpoint skip_ws (s : jsstring) : jsstring :=
  match s with
  | c :: r => if is_ws c then skip_ws r else s
  | [] => []
  end.

Definition digit_of (c : N) : option (uint -> uint) :=
  if c =? 48 then Some D0 else if c =? 49 then Some D1
  else if c =? 50 then Some D2 else if c =? 51 then Some D3
  else if c =? 52 then Some D4 else if c =? 53 then Some D5
  else if c =? 54 then Some D6 else if c =? 55 then Some D7
  else if c =? 56 then Some D8 else if c =? 57 then Some D9
  else None.

Fixpoint chars_of_uint (u : uint) : jsstring :=
  match u with
  | Nil => []
  | D0 u => 48 :: chars_of_uint u
  | D1 u => 49 :: chars_of_uint u
  | D2 u => 50 :: chars_of_uint u
  | D3 u => 51 :: chars_of_uint u
  | D4 u => 52 :: chars_of_uint u
  | D5 u => 53 :: chars_of_uint u
  | D6 u => 54 :: chars_of_uint u
  | D7 u => 55 :: chars_of_uint u
  | D8 u => 56 :: chars_of_uint u
  | D9 u => 57 :: chars_of_uint u
  end.

(** The longest run of decimal digits at the head of [s]. *)
Fixpoint parse_digits (s : jsstring) : uint * jsstring :=
  match s with
  | [] => (Nil, [])
  | c :: r =>
      match digit_of c with
      | Some d => let (u, r') := parse_digits r in (d u, r')
      | None => (Nil, s)
      end
  end.

Definition hex_of (c : N) : option N :=
  if (48 <=? c) && (c <=? 57) then Some (c - 48)
  else if (97 <=? c) && (c <=? 102) then Some (c - 87)
  else if (65 <=? c) && (c <=? 70) then Some (c - 55)
  else None.

(** Lower-case hexadecimal digit of [n < 16]. *)
Definition hex_digit (n : N) : N :=
  if n <? 10 then 48 + n else 87 + n.

(** *** [JSON.stringify]: QuoteJSONString and Number::toString *)

(** UnicodeEscape: backslash, [u], four lower-case hexadecimal digits. *)
Definition UnicodeEscape (c : N) : jsstring :=
  [92; 117; hex_digit (c / 4096 mod 16); hex_digit (c / 256 mod 16);
   hex_digit (c / 16 mod 16); hex_digit (c mod 16)].

Definition is_leading_surrogate (c : N) : bool := (55296 <=? c) && (c <=? 56319).
Definition is_trailing_surrogate (c : N) : bool := (56320 <=? c) && (c <=? 57343).

(** The escape of one code unit that is not half of a surrogate pair. *)
Definition quote_unit (c : N) : jsstring :=
  if c =? 8 then [92; 98]
  else if c =? 9 then [92; 116]
  else if c =? 10 then [92; 110]
  else if c =? 12 then [92; 102]
  else if c =? 13 then [92; 114]
  else if c =? 34 then [92; 34]
  else if c =? 92 then [92; 92]
  else if (c <? 32) || is_leading_surrogate c || is_trailing_surrogate c
       then UnicodeEscape c
  else [c].

(** The body of QuoteJSONString: the string is read code point by code
    point, so a leading surrogate followed by a trailing one is copied and a
    lone surrogate is escaped. *)
Fixpoint quote_units (s : jsstring) : jsstring :=
  match s with
  | [] => []
  | c :: t =>
      if is_leading_surrogate c then
        match t with
        | d :: t' =>
            if is_trailing_surrogate d then c :: d :: quote_units t'
            else UnicodeEscape c ++ quote_units t
        | [] => UnicodeEscape c
        end
      else quote_unit c ++ quote_units t
  end.

Definition QuoteJSONString (s : jsstring) : jsstring :=
  34 :: quote_units s ++ [34].

(** Number::toString of an integer (below 10^21 in absolute value, where
    JavaScript prints every digit). *)
Definition Number_toString (z : Z) : jsstring :=
  match Z.to_int z with
  | Pos u => chars_of_uint u
  | Neg u => 45 :: chars_of_uint u
  end.

(** *** [JSON.parse] *)

(** One more code unit in front of the string read so far. *)
Definition cons_unit (c : N) (r : Completion (jsstring * jsstring))
  : Completion (jsstring * jsstring) :=
  bind r (fun '(str, rest) => Normal (c :: str, rest)).

(** The characters of a string literal after its opening quote, up to and
    including the closing quote. *)
Fixpoint parse_chars (s : jsstring) : Completion (jsstring * jsstring) :=
  match s with
  | [] => SyntaxError
  | c :: r =>
      if c =? 34 then Normal ([], r)
      else if c =? 92 then
        match r with
        | [] => SyntaxError
        | e :: r1 =>
            if e =? 117 then
              match r1 with
              | h1 :: h2 :: h3 :: h4 :: r2 =>
                  match hex_of h1, hex_of h2, hex_of h3, hex_of h4 with
                  | Some a, Some b, Some c', Some d =>
                      cons_unit (((a * 16 + b) * 16 + c') * 16 + d) (parse_chars r2)
                  | _, _, _, _ => SyntaxError
                  end
              | _ => SyntaxError
              end
            else
              match (if e =? 34 then Some 34 else if e =? 92 then Some 92
                     else if e =? 47 then Some 47 else if e =? 98 then Some 8
                     else if e =? 102 then Some 12 else if e =? 110 then Some 10
                     else if e =? 114 then Some 13 else if e =? 116 then Some 9
                     else None) with
              | Some u => cons_unit u (parse_chars r1)
              | None => SyntaxError
              end
        end
      else if c <? 32 then SyntaxError
      else cons_unit c (parse_chars r)
  end.

(** int: a single [0], or a non-zero digit and the digits after it. *)
Definition parse_int_part (s : jsstring) : option (uint * jsstring) :=
  match s with
  | [] => None
  | c :: r =>
      if c =? 48 then Some (D0 Nil, r)
      else match digit_of c with
           | Some d => let (u, r') := parse_digits r in Some (d u, r')
           | None => None
           end
  end.

(** frac: nothing, or a point and at least one digit. *)
Definition parse_frac (s : jsstring) : option (uint * jsstring) :=
  match s with
  | 46 :: r =>
      match parse_digits r with
      | (Nil, _) => None
      | (f, r') => Some (f, r')
      end
  | _ => Some (Nil, s)
  end.

(** exp: nothing, or [e]/[E], an optional sign and at least one digit. *)
Definition parse_exp (s : jsstring) : option (Z * jsstring) :=
  let digits (neg : bool) (r : jsstring) :=
    match parse_digits r with
    | (Nil, _) => None
    | (x, r') => Some ((if neg then - Z.of_uint x else Z.of_uint x)%Z, r')
    end in
  match s with
  | c :: r =>
      if (c =? 101) || (c =? 69) then
        match r with
        | 43 :: r' => digits false r'
        | 45 :: r' => digits true r'
        | _ => digits false r
        end
      else Some (0%Z, s)
  | [] => Some (0%Z, s)
  end.

Definition parse_number (s : jsstring) : Completion (value * jsstring) :=
  let (neg, s1) := match s with
                   | 45 :: r => (true, r)
                   | _ => (false, s)
                   end in
  match parse_int_part s1 with
  | None => SyntaxError
  | Some (ip, s2) =>
      match parse_frac s2 with
      | None => SyntaxError
      | Some (fp, s3) =>
          match parse_exp s3 with
          | None => SyntaxError
          | Some (x, s4) =>
              let m := Z.of_uint (Decimal.app ip fp) in
              Normal (JNumber (if neg then - m else m)%Z
                              (x - Z.of_nat (nb_digits fp))%Z, s4)
          end
      end
  end.

(** [s] without the prefix [lit], when it starts with it. *)
Fixpoint strip_prefix (lit s : jsstring) : option jsstring :=
  match lit, s with
  | [], _ => Some s
  | a :: lit', b :: s' => if a =? b then strip_prefix lit' s' else None
  | _ :: _, [] => None
  end.

Definition parse_literal (lit : string) (v : value) (s : jsstring)
  : Completion (value * jsstring) :=
  match strip_prefix (js lit) s with
  | Some r => Normal (v, r)
  | None => SyntaxError
  end.

(** *** Properties of the object under construction *)

Fixpoint digits_of (s : jsstring) : option uint :=
  match s with
  | [] => Some Nil
  | c :: r =>
      match digit_of c, digits_of r with
      | Some d, Some u => Some (d u)
      | _, _ => None
      end
  end.

(** An array index: the canonical decimal of an integer below 2^32 - 1.
    Such keys are enumerated first, in ascending order. *)
Definition array_index (k : jsstring) : option N :=
  match k with
  | [] => None
  | c :: r =>
      if (c =? 48) && negb (bool_decide (r = [])) then None
      else match digits_of k with
           | Some u => let n := N.of_uint u in
                       if n <? 4294967295 then Some n else None
           | None => None
           end
  end.

Definition has_key (k : jsstring) (o : list (jsstring * value)) : bool :=
  existsb (fun kv => bool_decide (fst kv = k)) o.

Definition replace_key (k : jsstring) (v : value) (o : list (jsstring * value))
  : list (jsstring * value) :=
  List.map (fun kv => if bool_decide (fst kv = k) then (k, v) else kv) o.

Fixpoint put_index (i : N) (k : jsstring) (v : value)
  (o : list (jsstring * value)) : list (jsstring * value) :=
  match o with
  | [] => [(k, v)]
  | kv :: o' =>
      match array_index (fst kv) with
      | Some j => if j <? i then kv :: put_index i k v o' else (k, v) :: o
      | None => (k, v) :: o
      end
  end.

(** CreateDataProperty on the object being built: a repeated key keeps its
    place and takes the later value. *)
Definition define_property (o : list (jsstring * value)) (kv : jsstring * value)
  : list (jsstring * value) :=
  let (k, v) := kv in
  if has_key k o then replace_key k v o
  else match array_index k with
       | Some i => put_index i k v o
       | None => o ++ [(k, v)]
       end.

Definition make_object (members : list (jsstring * value)) : value :=
  JObject (fold_left define_property members []).

(** *** The recursive descent *)

Fixpoint parse_value (fuel : nat) (s : jsstring) {struct fuel}
  : Completion (value * jsstring) :=
  match fuel with
  | O => OutOfFuel
  | S fuel' =>
      match skip_ws s with
      | [] => SyntaxError
      | c :: r =>
          if c =? 34 then
            bind (parse_chars r) (fun '(str, rest) => Normal (JString str, rest))
          else if c =? 91 then
            match skip_ws r with
            | 93 :: rest => Normal (JArray [], rest)
            | _ => bind (parse_elements fuel' r) (fun '(vs, rest) =>
                     Normal (JArray vs, rest))
            end
          else if c =? 123 then
            match skip_ws r with
            | 125 :: rest => Normal (JObject [], rest)
            | _ => bind (parse_members fuel' r) (fun '(ms, rest) =>
                     Normal (make_object ms, rest))
            end
          else if c =? 116 then parse_literal "true" (JBool true) (c :: r)
          else if c =? 102 then parse_literal "false" (JBool false) (c :: r)
          else if c =? 110 then parse_literal "null" JNull (c :: r)
          else parse_number (c :: r)
      end
  end
with parse_elements (fuel : nat) (s : jsstring) {struct fuel}
  : Completion (list value * jsstring) :=
  match fuel with
  | O => OutOfFuel
  | S fuel' =>
      bind (parse_value fuel' s) (fun '(v, r) =>
        match skip_ws r with
        | 44 :: r' =>
            bind (parse_elements fuel' r') (fun '(vs, rest) => Normal (v :: vs, rest))
        | 93 :: rest => Normal ([v], rest)
        | _ => SyntaxError
        end)
  end
with parse_members (fuel : nat) (s : jsstring) {struct fuel}
  : Completion (list (jsstring * value) * jsstring) :=
  match fuel with
  | O => OutOfFuel
  | S fuel' =>
      match skip_ws s with
      | 34 :: r =>
          bind (parse_chars r) (fun '(k, r1) =>
            match skip_ws r1 with
            | 58 :: r2 =>
                bind (parse_value fuel' r2) (fun '(v, r3) =>
                  match skip_ws r3 with
                  | 44 :: r4 =>
                      bind (parse_members fuel' r4) (fun '(ms, rest) =>
                        Normal ((k, v) :: ms, rest))
                  | 125 :: rest => Normal ([(k, v)], rest)
                  | _ => SyntaxError
                  end)
            | _ => SyntaxError
            end)
      | _ => SyntaxError
      end
  end.

(** [JSON.parse text]: one value, then only white space. Every call of the
    descent consumes a character at least every second step, so twice the
    length of the text is fuel enough ([parse_total] below). *)
Definition parse (text : jsstring) : Completion value :=
  bind (parse_value (2 * length text + 1) text) (fun '(v, rest) =>
    match skip_ws rest with
    | [] => Normal v
    | _ :: _ => SyntaxError
    end).

(** The text after a number ends it: not a digit, a point or an exponent. *)
Definition ends_number (rest : jsstring) : bool :=
  match rest with
  | [] => true
  | c :: _ => negb ((48 <=? c) && (c <=? 57)) && negb (c =? 46)
              && negb (c =? 101) && negb (c =? 69)
  end.

(** [QuoteJSONString s] in front of the text [r]. *)
Definition quoted (s r : jsstring) : jsstring := 34 :: quote_units s ++ 34 :: r.

(** The parser ended, and left fewer than [n] characters. *)
Definition within {A} (n : nat) (c : Completion (A * jsstring)) : Prop :=
  match c with
  | Normal (_, r) => (length r < n)%nat
  | SyntaxError => True
  | OutOfFuel => False
  end.

End JSON.

(** ** The data model *)

(** [type Note] of [app.vue]. *)
Record Note : Type := {
  id : jsstring;
  title : jsstring;
  body : jsstring;
  created : Z;
  updated : Z
}.

#[global] Instance Note_eq_dec : EqDecision Note.
Proof. solve_decision. Defined.

Definition set_title (v : jsstring) (n : Note) : Note :=
  {| id := id n; title := v; body := body n;
     created := created n; updated := updated n |}.
Definition set_body (v : jsstring) (n : Note) : Note :=
  {| id := id n; title := title n; body := v;
     created := created n; updated := updated n |}.
Definition set_updated (v : Z) (n : Note) : Note :=
  {| id := id n; title := title n; body := body n;
     created := created n; updated := v |}.

(** The object literal [{ ...note }]: a new object with the same own
    properties. *)
Definition spread (n : Note) : Note :=
  {| id := id n; title := title n; body := body n;
     created := created n; updated := updated n |}.

(** *** A [Note[]] as a JavaScript value, and as JSON text *)

Definition Note_value (n : Note) : JSON.value :=
  JSON.JObject
    [(js "id", JSON.JString (id n));
     (js "title", JSON.JString (title n));
     (js "body", JSON.JString (body n));
     (js "created", JSON.JNumber (created n) 0);
     (js "updated", JSON.JNumber (updated n) 0)].

Definition Notes_value (ns : list Note) : JSON.value :=
  JSON.JArray (List.map Note_value ns).

(** The integer a number literal [m * 10^e] denotes, if it is one. *)
Definition integer_of (m e : Z) : option Z :=
  if (0 <=? e)%Z then Some (m * 10 ^ e)%Z
  else if (m mod 10 ^ (- e) =? 0)%Z then Some (m / 10 ^ (- e))%Z
  else None.

(** The cast [as Note[]] is not checked when the program runs. The model
    has a state only for values that do have the asserted type, with the
    properties in the order [createNewNote] writes them. *)
Definition as_Note (v : JSON.value) : option Note :=
  match v with
  | JSON.JObject [(k1, JSON.JString i); (k2, JSON.JString t);
                  (k3, JSON.JString b); (k4, JSON.JNumber c ce);
                  (k5, JSON.JNumber u ue)] =>
      if bool_decide ([k1; k2; k3; k4; k5] =
                      [js "id"; js "title"; js "body"; js "created"; js "updated"])
      then c' ← integer_of c ce; u' ← integer_of u ue;
           Some {| id := i; title := t; body := b; created := c'; updated := u' |}
      else None
  | _ => None
  end.

Definition as_Notes (v : JSON.value) : option (list Note) :=
  match v with
  | JSON.JArray vs => mapM as_Note vs
  | _ => None
  end.

(** SerializeJSONObject of a note: its five properties in creation order,
    no gap. *)
Definition stringify_Note (n : Note) : jsstring :=
  [123] ++ JSON.QuoteJSONString (js "id") ++ [58] ++ JSON.QuoteJSONString (id n)
  ++ [44] ++ JSON.QuoteJSONString (js "title") ++ [58] ++ JSON.QuoteJSONString (title n)
  ++ [44] ++ JSON.QuoteJSONString (js "body") ++ [58] ++ JSON.QuoteJSONString (body n)
  ++ [44] ++ JSON.QuoteJSONString (js "created") ++ [58] ++ JSON.Number_toString (created n)
  ++ [44] ++ JSON.QuoteJSONString (js "updated") ++ [58] ++ JSON.Number_toString (updated n)
  ++ [125].

Fixpoint join_comma (parts : list jsstring) : jsstring :=
  match parts with
  | [] => []
  | [x] => x
  | x :: rest => x ++ 44 :: join_comma rest
  end.

(** [JSON.stringify(notes.value)]: SerializeJSONArray. *)
Definition JSON_stringify (ns : list Note) : jsstring :=
  [91] ++ join_comma (List.map stringify_Note ns) ++ [93].

(** ** Array methods the handlers use *)

(** [Array.prototype.findIndex]: the first index whose element satisfies
    [p], or [-1]. *)
Fixpoint findIndex_from {A} (p : A -> bool) (l : list A) (i : Z) : Z :=
  match l with
  | [] => (-1)%Z
  | x :: t => if p x then i else findIndex_from p t (i + 1)%Z
  end.

Definition findIndex {A} (p : A -> bool) (l : list A) : Z := findIndex_from p l 0.

(** [a.splice(idx, 1)] for [idx >= 0]. *)
Definition splice1 {A} (idx : Z) (l : list A) : list A := delete (Z.to_nat idx) l.

(** [a[idx] = x] for an index inside the array (an index past the end would
    extend the array; [saveCurrentNote] only writes at a found index). *)
Definition array_set {A} (idx : Z) (x : A) (l : list A) : list A :=
  <[Z.to_nat idx := x]> l.

(** ** The environment and the state *)

Record Env : Type := {
  has_window : bool;        (* typeof window !== 'undefined' *)
  has_localStorage : bool   (* typeof localStorage !== 'undefined' *)
}.

Definition isClient (env : Env) : bool := has_window env && has_localStorage env.

(** The three refs of the component, the item ['notes'] of [localStorage],
    and whether the job of [watch(notes, persistNotes, { deep: true })] is
    in the scheduler's queue. *)
Record State : Type := {
  notes : list Note;
  currentNoteId : option jsstring;
  dirty : bool;
  storage : option jsstring;
  queued : bool
}.

Definition set_notes (v : list Note) (s : State) : State :=
  {| notes := v; currentNoteId := currentNoteId s; dirty := dirty s;
     storage := storage s; queued := queued s |}.
Definition set_currentNoteId (v : option jsstring) (s : State) : State :=
  {| notes := notes s; currentNoteId := v; dirty := dirty s;
     storage := storage s; queued := queued s |}.
Definition set_dirty (v : bool) (s : State) : State :=
  {| notes := notes s; currentNoteId := currentNoteId s; dirty := v;
     storage := storage s; queued := queued s |}.
Definition set_storage (v : option jsstring) (s : State) : State :=
  {| notes := notes s; currentNoteId := currentNoteId s; dirty := dirty s;
     storage := v; queued := queued s |}.
Definition set_queued (v : bool) (s : State) : State :=
  {| notes := notes s; currentNoteId := currentNoteId s; dirty := dirty s;
     storage := storage s; queued := v |}.

(** The refs as [setup] creates them, over what the store holds. *)
Definition setup (item : option jsstring) : State :=
  {| notes := []; currentNoteId := None; dirty := false;
     storage := item; queued := false |}.

(** Truthiness of a [string | null]. *)
Definition truthy (v : option jsstring) : bool :=
  match v with
  | Some (_ :: _) => true
  | _ => false
  end.

Section App.

Context (env : Env).

(** A write that the deep watcher of [notes] observes: its job is queued
    when the watcher was installed ([typeof window !== "undefined"]). *)
Definition trigger (s : State) : State :=
  set_queued (queued s || has_window env) s.

(** ** The functions of [app.vue] *)

Definition loadNotes (item : option jsstring) : JSON.value :=
  if negb (isClient env) then JSON.JArray []
  else match item with
       | None => JSON.JArray []
       | Some saved =>
           if bool_decide (saved = []) then JSON.JArray []
           else match JSON.parse saved with
                | Normal v => v
                | _ => JSON.JArray []
                end
       end.

(** The hook is [None] when the stored text parses to a value that is not
    a [Note[]]: the cast of [loadNotes] does not check it. *)
Definition onMounted (s : State) : option State :=
  if isClient env then
    ns ← as_Notes (loadNotes (storage s));
    let s1 := trigger (set_notes ns s) in
    Some (if bool_decide (0 < length ns)%nat && negb (truthy (currentNoteId s1))
          then set_currentNoteId (id <$> ns !! 0%nat) s1
          else s1)
  else Some s.

Definition currentNote (s : State) : option Note :=
  if negb (truthy (currentNoteId s)) then None
  else List.find (fun n => bool_decide (Some (id n) = currentNoteId s)) (notes s).

(** The index of the element that [currentNote] returns. *)
Definition current_index (s : State) : nat :=
  Z.to_nat (findIndex (fun m => bool_decide (Some (id m) = currentNoteId s)) (notes s)).

Definition persistNotes (s : State) : State :=
  if isClient env then set_storage (Some (JSON_stringify (notes s))) s else s.

(** [confirmed] is the answer of [confirm], asked only when [dirty]. *)
Definition selectNote (confirmed : bool) (i : jsstring) (s : State) : State :=
  if dirty s && negb confirmed then s
  else set_dirty false (set_currentNoteId (Some i) s).

(** [Number.prototype.toString(36)] of an integer. *)
Definition digit36 (d : N) : N := if d <? 10 then 48 + d else 87 + d.

Fixpoint radix36 (fuel : nat) (n : N) (acc : jsstring) : jsstring :=
  let acc' := digit36 (n mod 36) :: acc in
  match fuel with
  | O => acc'
  | S fuel' => if n / 36 =? 0 then acc' else radix36 fuel' (n / 36) acc'
  end.

Definition toString36 (t : Z) : jsstring :=
  match t with
  | Z0 => [48]
  | Zpos p => radix36 (Pos.size_nat p) (Npos p) []
  | Zneg p => 45 :: radix36 (Pos.size_nat p) (Npos p) []
  end.

(** What [createNewNote] takes from the outside: the answer of [confirm],
    the three readings of [Date.now()] in the order the function takes them,
    and [Math.random().toString(36).slice(2)]. *)
Record CreateInputs : Type := {
  confirm : bool;
  now_id : Z;
  random : jsstring;
  now_created : Z;
  now_updated : Z
}.

(** The object literal of [createNewNote]. *)
Definition new_note (c : CreateInputs) : Note :=
  {| id := toString36 (now_id c) ++ random c;
     title := [];
     body := [];
     created := now_created c;
     updated := now_updated c |}.

Definition createNewNote (c : CreateInputs) (s : State) : State :=
  if dirty s && negb (confirm c) then s
  else
    let note := new_note c in
    let s1 := trigger (set_notes (note :: notes s) s) in
    let s2 := persistNotes s1 in
    set_dirty false (set_currentNoteId (Some (id note)) s2).

Definition deleteNote (confirmed : bool) (i : jsstring) (s : State) : State :=
  if negb confirmed then s
  else
    let idx := findIndex (fun n => bool_decide (id n = i)) (notes s) in
    let s1 := if (idx >=? 0)%Z
              then persistNotes (trigger (set_notes (splice1 idx (notes s)) s))
              else s in
    if bool_decide (currentNoteId s1 = Some i)
    then set_dirty false (set_currentNoteId (id <$> notes s1 !! 0%nat) s1)
    else s1.

(** A property write through [currentNote.value]. The computed ref returns
    the element of [notes.value] itself (its reactive proxy), so the write
    lands in the array, and the watcher is triggered when the value changes. *)
Definition assign_current (f : Note -> Note) (s : State) : State :=
  match currentNote s with
  | None => s
  | Some n =>
      let idx := findIndex (fun m => bool_decide (Some (id m) = currentNoteId s))
                   (notes s) in
      let s1 := set_notes (alter f (Z.to_nat idx) (notes s)) s in
      if bool_decide (f n = n) then s1 else trigger s1
  end.

Definition updateCurrentNote (now : Z) (s : State) : State :=
  match currentNote s with
  | None => s
  | Some _ => set_dirty true (assign_current (set_updated now) s)
  end.

Definition saveCurrentNote (s : State) : State :=
  match currentNote s with
  | None => s
  | Some n =>
      let idx := findIndex (fun m => bool_decide (id m = id n)) (notes s) in
      if negb (idx =? -1)%Z
      then set_dirty false
             (persistNotes (trigger (set_notes (array_set idx (spread n) (notes s)) s)))
      else s
  end.

(** The two fields of the editor. *)
Inductive Field : Type := Title | Body.

Definition set_field (fld : Field) (v : jsstring) : Note -> Note :=
  match fld with
  | Title => set_title v
  | Body => set_body v
  end.

(** The [input] event of a field of the editor: [v-model="currentNote.title"]
    (or [.body]) writes the property, then [@input="updateCurrentNote"]
    runs. *)
Definition input (fld : Field) (v : jsstring) (now : Z) (s : State) : State :=
  updateCurrentNote now (assign_current (set_field fld v) s).

(** The scheduler runs the queued job of the watcher, [persistNotes], when
    the handler that queued it has returned. *)
Definition flushJobs (s : State) : State :=
  if queued s then set_queued false (persistNotes s) else s.

(** One event of the page: its handler, then the queued jobs. *)
Definition dispatch (handler : State -> State) (s : State) : State :=
  flushJobs (handler s).

(** A run of [create] events. *)
Definition create_all (cs : list CreateInputs) (s : State) : State :=
  fold_left (fun st c => dispatch (createNewNote c) st) cs s.

End App.

(** A browser: [window] and [localStorage] both exist. *)
Definition browser : Env := {| has_window := true; has_localStorage := true |}.

(** Server-side rendering: neither exists. *)
Definition server : Env := {| has_window := false; has_localStorage := false |}.

(** ** Sample data *)

Definition note_a : Note :=
  {| id := js "a"; title := js "Shopping"; body := js "milk";
     created := 1000; updated := 1000 |}.

Definition note_b : Note :=
  {| id := js "b"; title := []; body := []; created := 2000; updated := 2500 |}.

(** A page in a browser whose store mirrors its collection. *)
Definition page (ns : list Note) (cur : option jsstring) (d : bool) : State :=
  {| notes := ns; currentNoteId := cur; dirty := d;
     storage := Some (JSON_stringify ns); queued := false |}.

(** Two notes, the second one open in the editor, nothing unsaved. *)
Definition page_editing_a : State := page [note_b; note_a] (Some (js "a")) false.

(** Two [create] calls; during the first the clock ticks between the reading
    for [created] and the reading for [updated]. *)
Definition create_1 : CreateInputs :=
  {| confirm := false; now_id := 1762112000000; random := js "k3j9x";
     now_created := 1762112000000; now_updated := 1762112000001 |}.

Definition create_2 : CreateInputs :=
  {| confirm := false; now_id := 1762112004000; random := js "0fzq2";
     now_created := 1762112004000; now_updated := 1762112004000 |}.

(** ** The page: what the template offers *)

(** The events the template binds: a click on a note of the sidebar
    ([@click="selectNote(note.id)"]), on [+] ([@click="createNewNote"]), on
    the bin of a note ([@click.stop="deleteNote(note.id)"]), typing in a
    field of the editor, and a click on Save. Each carries what its handler
    takes from the outside. *)
Inductive Event : Type :=
| ClickNote (confirmed : bool) (i : jsstring)
| ClickAdd (c : CreateInputs)
| ClickDelete (confirmed : bool) (i : jsstring)
| TypeIn (fld : Field) (v : jsstring) (now : Z)
| ClickSave.

Definition handler (env : Env) (ev : Event) : State -> State :=
  match ev with
  | ClickNote confirmed i => selectNote confirmed i
  | ClickAdd c => createNewNote env c
  | ClickDelete confirmed i => deleteNote env confirmed i
  | TypeIn fld v now => input env fld v now
  | ClickSave => saveCurrentNote env
  end.

(** One event: its handler, then the queued job of the watcher. *)
Definition step (env : Env) (ev : Event) (s : State) : State :=
  dispatch env (handler env ev) s.

(** Whether the rendered page has the control of the event: the sidebar has
    one button (and one bin) per note of [notes] ([v-for="note in notes"]),
    the editor is rendered when there is a current note
    ([v-if="currentNote"]), and Save is disabled unless [dirty]
    ([:disabled="!dirty"]). *)
Definition offered (s : State) (ev : Event) : bool :=
  match ev with
  | ClickNote _ i | ClickDelete _ i =>
      existsb (fun n => bool_decide (id n = i)) (notes s)
  | ClickAdd _ => true
  | TypeIn _ _ _ => bool_decide (currentNote s <> None)
  | ClickSave => bool_decide (currentNote s <> None) && dirty s
  end.

(** The states of a page: mounted over some content of the store, then
    driven by the events it offers. *)
Inductive reachable (env : Env) : State -> Prop :=
| reach_mounted (item : option jsstring) (s : State) :
    onMounted env (setup item) = Some s -> reachable env (flushJobs env s)
| reach_step (s : State) (ev : Event) :
    reachable env s -> offered s ev = true -> reachable env (step env ev s).

(** The class of a sidebar button:
    [note.id === currentNoteId ? 'selected' : '']. *)
Definition selected (s : State) (n : Note) : bool :=
  bool_decide (Some (id n) = currentNoteId s).

(** The store mirrors the collection and no write is pending. *)
Definition synced (s : State) : Prop :=
  storage s = Some (JSON_stringify (notes s)) /\ queued s = false.

(** [currentNoteId] is null or the id of a note of the collection. *)
Definition selection_in_notes (s : State) : Prop :=
  match currentNoteId s with
  | None => True
  | Some i => exists n, In n (notes s) /\ id n = i
  end.

(** The selection points into the collection, and unsaved edits belong to
    a current note. *)
Definition selection_sound (s : State) : Prop :=
  selection_in_notes s /\ (dirty s = true -> currentNote s <> None).

(** The integer a base-36 numeral denotes, to state what [toString36]
    writes. *)
Definition digit36_value (c : N) : N :=
  if c <? 58 then c - 48 else c - 87.

Definition value36 (digits : jsstring) : N :=
  fold_left (fun acc c => acc * 36 + digit36_value c) digits 0.

Definition read36 (text : jsstring) : Z :=
  match text with
  | 45 :: digits => (- Z.of_N (value36 digits))%Z
  | _ => Z.of_N (value36 text)
  end.

(** * Properties *)

(** ** Arrays *)

Lemma findIndex_from_find {A} (p : A -> bool) (l : list A) (i : Z) (x : A) :
  List.find p l = Some x ->
  exists k : nat, findIndex_from p l i = (i + Z.of_nat k)%Z /\ l !! k = Some x /\ p x = true.
Proof.
  revert i. induction l as [|y l IH]; intros i Hf; simpl in *; [discriminate|].
  destruct (p y) eqn:Hp.
  - injection Hf as ->. exists 0%nat. rewrite Z.add_0_r. auto.
  - destruct (IH (i + 1)%Z Hf) as (k & Hk & Hl & Hx).
    exists (S k). rewrite Hk. split; [lia | auto].
Qed.

Lemma findIndex_find {A} (p : A -> bool) (l : list A) (x : A) :
  List.find p l = Some x ->
  exists k : nat, findIndex p l = Z.of_nat k /\ l !! k = Some x /\ p x = true.
Proof.
  intros Hf. destruct (findIndex_from_find p l 0 x Hf) as (k & Hk & H).
  exists k. unfold findIndex. rewrite Hk. auto.
Qed.

Lemma findIndex_from_none {A} (p : A -> bool) (l : list A) (i : Z) :
  List.find p l = None -> findIndex_from p l i = (-1)%Z.
Proof.
  revert i. induction l as [|y l IH]; intros i Hf; simpl in *; [reflexivity|].
  destruct (p y); [discriminate | auto].
Qed.

Lemma findIndex_ext {A} (p q : A -> bool) (l : list A) :
  (forall x, p x = q x) -> findIndex p l = findIndex q l.
Proof.
  intros E. unfold findIndex. generalize 0%Z.
  induction l as [|y l IH]; intros i; simpl; [reflexivity|].
  rewrite E, IH. reflexivity.
Qed.

Lemma find_absent (i : jsstring) (l : list Note) :
  (forall n, In n l -> id n <> i) ->
  List.find (fun n => bool_decide (id n = i)) l = None.
Proof.
  intros H. destruct (List.find _ l) as [n|] eqn:Hf; [|reflexivity].
  apply find_some in Hf as [Hin Hp]. apply bool_decide_eq_true in Hp.
  destruct (H n Hin Hp).
Qed.

Lemma map_fmap {A B} (f : A -> B) (l : list A) : List.map f l = f <$> l.
Proof. induction l as [|a l IH]; [reflexivity|]. rewrite fmap_cons, <- IH. reflexivity. Qed.

Lemma spread_same (n : Note) : spread n = n.
Proof. destruct n; reflexivity. Qed.

(** After the first note of id [i] is spliced out of a collection whose ids
    are distinct, no note of id [i] is left. *)
Lemma splice_found_gone (l : list Note) (i : jsstring) (k : nat) (x : Note) :
  NoDup (List.map id l) -> l !! k = Some x -> id x = i ->
  forall y, In y (delete k l) -> id y <> i.
Proof.
  intros Hnd Hk Hx y Hy Hyi.
  apply list_elem_of_In, list_elem_of_lookup in Hy as [j Hj].
  rewrite map_fmap, NoDup_alt in Hnd.
  destruct (decide (j < k)%nat) as [Hlt|Hge].
  - rewrite list_lookup_delete_lt in Hj by exact Hlt.
    assert (j = k); [|lia].
    apply (Hnd j k i); rewrite list_lookup_fmap.
    + rewrite Hj. simpl. congruence.
    + rewrite Hk. simpl. congruence.
  - rewrite list_lookup_delete_ge in Hj by lia.
    assert (S j = k); [|lia].
    apply (Hnd (S j) k i); rewrite list_lookup_fmap.
    + rewrite Hj. simpl. congruence.
    + rewrite Hk. simpl. congruence.
Qed.

(** ** The derived current note *)

Lemma currentNote_Some (s : State) (n : Note) :
  currentNote s = Some n ->
  currentNoteId s = Some (id n) /\ id n <> [] /\ In n (notes s) /\
  exists k : nat,
    findIndex (fun m => bool_decide (Some (id m) = currentNoteId s)) (notes s) = Z.of_nat k /\
    notes s !! k = Some n.
Proof.
  unfold currentNote. destruct (truthy (currentNoteId s)) eqn:Ht; simpl; [|discriminate].
  intros Hf. pose proof (find_some _ _ Hf) as [Hin Hp].
  apply bool_decide_eq_true in Hp.
  destruct (findIndex_find _ _ _ Hf) as (k & Hk & Hl & _).
  split; [auto|]. split; [|eauto].
  intros E. rewrite <- Hp, E in Ht. discriminate.
Qed.

Lemma currentNote_head (s : State) (n : Note) (rest : list Note) :
  notes s = n :: rest -> currentNoteId s = Some (id n) -> id n <> [] ->
  currentNote s = Some n.
Proof.
  intros Hn Hc Hne. unfold currentNote. rewrite Hc, Hn. simpl.
  destruct (id n) eqn:E; [congruence|]. simpl.
  rewrite bool_decide_eq_true_2; reflexivity.
Qed.


(** ** The platform functions on sample inputs *)

Example parse_scalars :
  JSON.parse (js " [1, -2.50e3, 0, true, false, null] ")
  = Normal (JSON.JArray [JSON.JNumber 1 0; JSON.JNumber (-250) 1; JSON.JNumber 0 0;
                         JSON.JBool true; JSON.JBool false; JSON.JNull]).
Proof. reflexivity. Qed.

Example parse_rejects :
  List.map JSON.parse [js "not json"; js ""; js "[1,]"; js "01"; js "{a:1}";
                       js "[1] x"; js "1."; js "-"; js "tru"]
  = repeat SyntaxError 9.
Proof. reflexivity. Qed.

(** A repeated key keeps its place and takes the later value; array indices
    come first, in ascending order. *)
Example parse_property_order :
  JSON.parse (js "{" ++ JSON.QuoteJSONString (js "b") ++ js ":1,"
              ++ JSON.QuoteJSONString (js "2") ++ js ":[],"
              ++ JSON.QuoteJSONString (js "b") ++ js ":null,"
              ++ JSON.QuoteJSONString (js "1") ++ js ":7}")
  = Normal (JSON.JObject [(js "1", JSON.JNumber 7 0); (js "2", JSON.JArray []);
                          (js "b", JSON.JNull)]).
Proof. reflexivity. Qed.

(** Escapes: a control character, a quote, a surrogate pair (copied) and a
    lone surrogate (escaped). *)
Example quote_escapes :
  JSON.QuoteJSONString [10; 34; 55357; 56832; 56832; 97]
  = [34] ++ js "\n\" ++ [34; 55357; 56832] ++ js "\ude00a" ++ [34].
Proof. reflexivity. Qed.

Example parse_escapes :
  JSON.parse ([34] ++ js "\u0041\n\/\uD83D" ++ [34])
  = Normal (JSON.JString [65; 10; 47; 55357]).
Proof. reflexivity. Qed.

Example toString36_samples :
  List.map toString36 [0; 35; 36; -1295; 1762112000000]%Z
  = [js "0"; js "z"; js "10"; js "-zz"; js "mhi3zkzk"].
Proof. reflexivity. Qed.

(** Text that is JSON but not an array of notes is not rejected by
    [loadNotes]; the cast [as Note[]] then holds a value of another type, for
    which this model has no state. *)
Example load_json_of_another_type :
  JSON.parse (js "null") = Normal JSON.JNull /\
  loadNotes browser (Some (js "null")) = JSON.JNull /\
  onMounted browser (setup (Some (js "null"))) = None.
Proof. repeat split; reflexivity. Qed.

(** ** JSON text *)

Module JSONFacts.
Import JSON.

(** *** Numbers *)

Lemma digit_of_range (c : N) (d : uint -> uint) :
  digit_of c = Some d -> 48 <= c <= 57.
Proof.
  unfold digit_of.
  repeat match goal with
         | |- context [?a =? ?b] => destruct (N.eqb_spec a b); [subst; lia|]
         end.
  discriminate.
Qed.

Lemma ends_number_no_digit (rest : jsstring) :
  ends_number rest = true ->
  match rest with [] => True | c :: _ => digit_of c = None end.
Proof.
  destruct rest as [|c r]; [auto|]. simpl. intros H.
  destruct (digit_of c) as [d|] eqn:E; [|reflexivity].
  apply digit_of_range in E.
  replace (48 <=? c) with true in H by (symmetry; apply N.leb_le; lia).
  replace (c <=? 57) with true in H by (symmetry; apply N.leb_le; lia).
  discriminate.
Qed.

Lemma parse_digits_chars (u : uint) (rest : jsstring) :
  ends_number rest = true ->
  parse_digits (chars_of_uint u ++ rest) = (u, rest).
Proof.
  intros H. apply ends_number_no_digit in H.
  induction u; simpl; try (rewrite IHu; reflexivity).
  destruct rest as [|c r]; [reflexivity|]. simpl. rewrite H. reflexivity.
Qed.

(** The decimal of a positive number starts with a digit that is not zero. *)
Lemma to_uint_head (p : positive) :
  exists (c : N) (d : uint -> uint) (u : uint),
    Pos.to_uint p = d u /\ chars_of_uint (Pos.to_uint p) = c :: chars_of_uint u /\
    digit_of c = Some d /\ c <> 48 /\ c <> 45.
Proof.
  assert (Hn : unorm (Pos.to_uint p) = Pos.to_uint p).
  { rewrite <- DecimalPos.Unsigned.to_of, DecimalPos.Unsigned.of_to. reflexivity. }
  pose proof (DecimalPos.Unsigned.to_uint_nonnil p) as Hnil.
  pose proof (DecimalPos.Unsigned.to_uint_nonzero p) as Hz.
  destruct (Pos.to_uint p) as [|u|u|u|u|u|u|u|u|u|u] eqn:E; [congruence| |..].
  - exfalso. rewrite unorm_D0 in Hn. unfold unorm in Hn.
    destruct (nzhead u) eqn:Eh; try discriminate.
    + injection Hn as <-. apply Hz. reflexivity.
    + apply (nzhead_nonzero u u). congruence.
  - exists 49, D1, u. repeat split; (reflexivity || discriminate).
  - exists 50, D2, u. repeat split; (reflexivity || discriminate).
  - exists 51, D3, u. repeat split; (reflexivity || discriminate).
  - exists 52, D4, u. repeat split; (reflexivity || discriminate).
  - exists 53, D5, u. repeat split; (reflexivity || discriminate).
  - exists 54, D6, u. repeat split; (reflexivity || discriminate).
  - exists 55, D7, u. repeat split; (reflexivity || discriminate).
  - exists 56, D8, u. repeat split; (reflexivity || discriminate).
  - exists 57, D9, u. repeat split; (reflexivity || discriminate).
Qed.

Lemma parse_frac_none (rest : jsstring) :
  ends_number rest = true -> parse_frac rest = Some (Nil, rest).
Proof.
  destruct rest as [|c r]; [reflexivity|]. simpl. intros H.
  destruct (N.eqb_spec c 46) as [->|Hc]; [discriminate H|].
  unfold parse_frac.
  destruct c as [|p]; [reflexivity|].
  do 6 (destruct p as [p|p|]; try reflexivity). congruence.
Qed.

Lemma parse_exp_none (rest : jsstring) :
  ends_number rest = true -> parse_exp rest = Some (0%Z, rest).
Proof.
  destruct rest as [|c r]; [reflexivity|]. simpl. intros H.
  destruct (c =? 101); [rewrite andb_false_r in H; discriminate|].
  destruct (c =? 69); [rewrite andb_false_r in H; discriminate|].
  reflexivity.
Qed.

Lemma parse_unsigned (p : positive) (rest : jsstring) :
  ends_number rest = true ->
  parse_int_part (chars_of_uint (Pos.to_uint p) ++ rest) = Some (Pos.to_uint p, rest).
Proof.
  intros H. destruct (to_uint_head p) as (c & d & u & Hu & Hc & Hd & H48 & _).
  rewrite Hc, Hu. simpl. apply N.eqb_neq in H48. rewrite H48, Hd.
  rewrite parse_digits_chars by exact H. reflexivity.
Qed.

(** [JSON.parse] reads the text of an integer back as that integer. *)
Lemma parse_number_toString (z : Z) (rest : jsstring) :
  ends_number rest = true ->
  parse_number (Number_toString z ++ rest) = Normal (JNumber z 0, rest).
Proof.
  intros H. unfold Number_toString, parse_number.
  destruct z as [|p|p]; simpl Z.to_int; cbv iota.
  - simpl. rewrite parse_frac_none, parse_exp_none by exact H. reflexivity.
  - destruct (to_uint_head p) as (c & d & u & Hu & Hc & Hd & H48 & H45).
    assert (Hs : match chars_of_uint (Pos.to_uint p) ++ rest with
                 | 45 :: r => (true, r)
                 | _ => (false, chars_of_uint (Pos.to_uint p) ++ rest)
                 end = (false, chars_of_uint (Pos.to_uint p) ++ rest)).
    { rewrite Hc. simpl. destruct c as [|q]; [reflexivity|].
      do 6 (destruct q as [q|q|]; try reflexivity). congruence. }
    rewrite Hs, parse_unsigned, parse_frac_none, parse_exp_none by exact H.
    rewrite DecimalFacts.app_nil_r. unfold Z.of_uint.
    rewrite DecimalPos.Unsigned.of_to. reflexivity.
  - simpl. rewrite parse_unsigned, parse_frac_none, parse_exp_none by exact H.
    rewrite DecimalFacts.app_nil_r. unfold Z.of_uint.
    rewrite DecimalPos.Unsigned.of_to. reflexivity.
Qed.

(** The first character of the text of an integer. *)
Lemma Number_toString_head (z : Z) :
  exists (c : N) (cs : jsstring),
    Number_toString z = c :: cs /\ (c = 45 \/ 48 <= c <= 57).
Proof.
  unfold Number_toString. destruct z as [|p|p]; simpl.
  - exists 48, []. split; [reflexivity | right; lia].
  - destruct (to_uint_head p) as (c & d & u & _ & Hc & Hd & _).
    exists c, (chars_of_uint u). split; [exact Hc|]. right.
    apply (digit_of_range c d Hd).
  - eexists _, _. split; [reflexivity | left; reflexivity].
Qed.

(** *** Strings *)

Lemma hex_of_digit (n : N) : n < 16 -> hex_of (hex_digit n) = Some n.
Proof.
  intros H. unfold hex_digit, hex_of.
  destruct (N.ltb_spec n 10) as [Hlt|Hge].
  - replace (48 <=? 48 + n) with true by (symmetry; apply N.leb_le; lia).
    replace (48 + n <=? 57) with true by (symmetry; apply N.leb_le; lia).
    simpl. f_equal. lia.
  - replace (48 <=? 87 + n) with true by (symmetry; apply N.leb_le; lia).
    replace (87 + n <=? 57) with false by (symmetry; apply N.leb_gt; lia).
    replace (97 <=? 87 + n) with true by (symmetry; apply N.leb_le; lia).
    replace (87 + n <=? 102) with true by (symmetry; apply N.leb_le; lia).
    simpl. f_equal. lia.
Qed.

Lemma hex_digits_value (c : N) :
  c < 65536 ->
  ((c / 4096 mod 16 * 16 + c / 256 mod 16) * 16 + c / 16 mod 16) * 16 + c mod 16 = c.
Proof.
  intros H.
  assert (E1 : c / 256 = c / 16 / 16) by (rewrite N.Div0.div_div; reflexivity).
  assert (E2 : c / 4096 = c / 256 / 16) by (rewrite N.Div0.div_div; reflexivity).
  assert (H3 : c / 4096 < 16) by (apply N.Div0.div_lt_upper_bound; exact H).
  pose proof (N.div_mod c 16 ltac:(discriminate)) as H0.
  pose proof (N.div_mod (c / 16) 16 ltac:(discriminate)) as H1.
  pose proof (N.div_mod (c / 256) 16 ltac:(discriminate)) as H2.
  rewrite <- E1 in H1. rewrite <- E2 in H2.
  rewrite (N.mod_small (c / 4096) 16) by exact H3.
  lia.
Qed.

Lemma parse_chars_escape (c : N) (r : jsstring) :
  c < 65536 -> parse_chars (UnicodeEscape c ++ r) = cons_unit c (parse_chars r).
Proof.
  intros H. unfold UnicodeEscape. cbn [app parse_chars N.eqb Pos.eqb].
  rewrite !hex_of_digit by (apply N.mod_lt; discriminate).
  rewrite hex_digits_value by exact H. reflexivity.
Qed.

Lemma parse_chars_literal (c : N) (r : jsstring) :
  c <> 34 -> c <> 92 -> 32 <= c -> parse_chars (c :: r) = cons_unit c (parse_chars r).
Proof.
  intros H1 H2 H3. cbn [parse_chars].
  apply N.eqb_neq in H1, H2. rewrite H1, H2.
  replace (c <? 32) with false by (symmetry; apply N.ltb_ge; exact H3).
  reflexivity.
Qed.

Lemma parse_chars_quote_unit (c : N) (r : jsstring) :
  is_leading_surrogate c = false ->
  parse_chars (quote_unit c ++ r) = cons_unit c (parse_chars r).
Proof.
  intros Hl. unfold quote_unit.
  repeat match goal with
         | |- context [if ?a =? ?b then _ else _] =>
             destruct (N.eqb_spec a b); [subst; reflexivity|]
         end.
  rewrite Hl, orb_false_r.
  destruct (N.ltb_spec c 32) as [Hlt|Hge]; simpl.
  - apply parse_chars_escape. lia.
  - destruct (is_trailing_surrogate c) eqn:Ht.
    + apply parse_chars_escape. unfold is_trailing_surrogate in Ht.
      apply andb_true_iff in Ht as [_ Ht]. apply N.leb_le in Ht. lia.
    + apply parse_chars_literal; assumption.
Qed.

Lemma surrogate_literal (c : N) (r : jsstring) :
  55296 <= c -> parse_chars (c :: r) = cons_unit c (parse_chars r).
Proof. intros H. apply parse_chars_literal; lia. Qed.

(** [JSON.parse] reads a quoted string back: the characters that
    QuoteJSONString writes for [s], then the closing quote. *)
Lemma parse_chars_quote_units (s rest : jsstring) :
  parse_chars (quote_units s ++ 34 :: rest) = Normal (s, rest).
Proof.
  remember (length s) as len eqn:Hlen.
  assert (Hle : (length s <= len)%nat) by lia. clear Hlen.
  revert s Hle. induction len as [|len IH]; intros s Hle.
  - destruct s; [reflexivity | simpl in Hle; lia].
  - destruct s as [|c t]; [reflexivity|]. simpl in Hle.
    cbn [quote_units]. destruct (is_leading_surrogate c) eqn:Hl.
    + assert (Hc : 55296 <= c <= 56319).
      { unfold is_leading_surrogate in Hl. apply andb_true_iff in Hl as [H1 H2].
        apply N.leb_le in H1, H2. lia. }
      destruct t as [|d t'].
      * rewrite parse_chars_escape by lia. reflexivity.
      * destruct (is_trailing_surrogate d) eqn:Ht.
        -- assert (Hd : 56320 <= d).
           { unfold is_trailing_surrogate in Ht. apply andb_true_iff in Ht as [H1 _].
             apply N.leb_le in H1. exact H1. }
           rewrite <- !app_comm_cons.
           rewrite surrogate_literal, surrogate_literal by lia.
           rewrite IH by (simpl in Hle; lia). reflexivity.
        -- rewrite <- app_assoc, parse_chars_escape by lia.
           rewrite IH by lia. reflexivity.
    + rewrite <- app_assoc, parse_chars_quote_unit by exact Hl.
      rewrite IH by lia. reflexivity.
Qed.

(** *** A note and a collection *)

Lemma stringify_Note_app (n : Note) (rest : jsstring) :
  stringify_Note n ++ rest
  = 123 :: quoted (js "id") (58 :: quoted (id n)
     (44 :: quoted (js "title") (58 :: quoted (title n)
     (44 :: quoted (js "body") (58 :: quoted (body n)
     (44 :: quoted (js "created") (58 :: Number_toString (created n) ++
      44 :: quoted (js "updated") (58 :: Number_toString (updated n) ++
      125 :: rest)))))))).
Proof.
  unfold stringify_Note, QuoteJSONString, quoted.
  repeat (rewrite <- ?app_assoc, <- ?app_comm_cons; cbn [app]).
  reflexivity.
Qed.

Lemma parse_value_quoted (f : nat) (s r : jsstring) :
  parse_value (S f) (quoted s r) = Normal (JString s, r).
Proof.
  unfold quoted. cbn [parse_value skip_ws is_ws N.eqb Pos.eqb orb].
  rewrite parse_chars_quote_units. reflexivity.
Qed.

Lemma parse_value_number (f : nat) (z : Z) (rest : jsstring) :
  ends_number rest = true ->
  parse_value (S f) (Number_toString z ++ rest) = Normal (JNumber z 0, rest).
Proof.
  intros H. rewrite <- (parse_number_toString z rest H).
  destruct (Number_toString_head z) as (c & cs & E & Hc). rewrite E.
  rewrite <- app_comm_cons. cbn [parse_value skip_ws]. unfold is_ws.
  repeat match goal with
         | |- context [?a =? ?b] => destruct (N.eqb_spec a b); [exfalso; lia|]
         end.
  cbn [orb]. cbv beta iota.
  repeat match goal with
         | |- context [?a =? ?b] => destruct (N.eqb_spec a b); [exfalso; lia|]
         end.
  reflexivity.
Qed.

Lemma parse_members_entry (f : nat) (k vtext : jsstring) (v : value) (after : jsstring) :
  parse_value f vtext = Normal (v, after) ->
  parse_members (S f) (quoted k (58 :: vtext))
  = match skip_ws after with
    | 44 :: r4 =>
        bind (parse_members f r4) (fun '(ms, rest) => Normal ((k, v) :: ms, rest))
    | 125 :: rest => Normal ([(k, v)], rest)
    | _ => SyntaxError
    end.
Proof.
  intros H. unfold quoted. cbn [parse_members skip_ws is_ws N.eqb Pos.eqb orb].
  rewrite parse_chars_quote_units. cbn [bind skip_ws is_ws N.eqb Pos.eqb orb].
  rewrite H. reflexivity.
Qed.

Lemma parse_value_object (f : nat) (k r : jsstring) :
  parse_value (S f) (123 :: quoted k r)
  = bind (parse_members f (quoted k r)) (fun '(ms, rest) => Normal (make_object ms, rest)).
Proof. reflexivity. Qed.

(** [JSON.parse] reads the text of a note back as the object of the note. *)
Lemma parse_value_Note (f : nat) (n : Note) (rest : jsstring) :
  parse_value (7 + f) (stringify_Note n ++ rest) = Normal (Note_value n, rest).
Proof.
  rewrite stringify_Note_app. cbn [Nat.add].
  rewrite parse_value_object.
  rewrite (parse_members_entry _ _ _ _ _ (parse_value_quoted _ _ _)).
  cbn [skip_ws is_ws N.eqb Pos.eqb orb].
  rewrite (parse_members_entry _ _ _ _ _ (parse_value_quoted _ _ _)).
  cbn [skip_ws is_ws N.eqb Pos.eqb orb].
  rewrite (parse_members_entry _ _ _ _ _ (parse_value_quoted _ _ _)).
  cbn [skip_ws is_ws N.eqb Pos.eqb orb].
  rewrite (parse_members_entry _ _ _ _ _
             (parse_value_number _ (created n) (44 :: _) eq_refl)).
  cbn [skip_ws is_ws N.eqb Pos.eqb orb].
  rewrite (parse_members_entry _ _ _ _ _
             (parse_value_number _ (updated n) (125 :: _) eq_refl)).
  cbn [skip_ws is_ws N.eqb Pos.eqb orb bind].
  reflexivity.
Qed.

Lemma stringify_Note_head (n : Note) :
  exists cs, stringify_Note n = 123 :: cs /\ (8 <= length cs)%nat.
Proof.
  eexists. split; [reflexivity|].
  rewrite !length_app. simpl. lia.
Qed.

Lemma join_comma_more (x : jsstring) (n : Note) (ns : list Note) :
  join_comma (x :: List.map stringify_Note (n :: ns))
  = x ++ 44 :: join_comma (List.map stringify_Note (n :: ns)).
Proof. reflexivity. Qed.

(** The elements of a collection that is not empty, up to the closing
    bracket. *)
Lemma parse_elements_Notes (n : Note) (ns : list Note) (f : nat) (rest : jsstring) :
  parse_elements (length ns + 8 + f) (join_comma (List.map stringify_Note (n :: ns)) ++ 93 :: rest)
  = Normal (List.map Note_value (n :: ns), rest).
Proof.
  revert n. induction ns as [|m ns IH]; intros n.
  - change (length (@nil Note) + 8 + f)%nat with (S (7 + f)).
    cbn [List.map join_comma parse_elements].
    rewrite (parse_value_Note f n (93 :: rest)). reflexivity.
  - replace (length (m :: ns) + 8 + f)%nat with (S (7 + (length ns + 1 + f)))
      by (simpl; lia).
    change (List.map stringify_Note (n :: m :: ns))
      with (stringify_Note n :: List.map stringify_Note (m :: ns)).
    rewrite join_comma_more. cbn [parse_elements].
    rewrite <- app_assoc, <- app_comm_cons.
    rewrite parse_value_Note. cbn [bind skip_ws is_ws N.eqb Pos.eqb orb].
    replace (7 + (length ns + 1 + f))%nat with (length ns + 8 + f)%nat by lia.
    rewrite IH. reflexivity.
Qed.

Lemma JSON_stringify_length (ns : list Note) :
  (2 + 8 * length ns <= length (JSON_stringify ns))%nat.
Proof.
  unfold JSON_stringify. rewrite !length_app. simpl.
  assert (H : (8 * length ns <= length (join_comma (List.map stringify_Note ns)))%nat).
  { induction ns as [|n ns IH]; [simpl; lia|].
    destruct (stringify_Note_head n) as (cs & E & Hcs).
    destruct ns as [|m ns].
    - cbn [List.map join_comma]. rewrite E. simpl. lia.
    - change (List.map stringify_Note (n :: m :: ns))
        with (stringify_Note n :: List.map stringify_Note (m :: ns)).
      rewrite join_comma_more, length_app, E. simpl in *. lia. }
  lia.
Qed.

(** Round trip of the serialisation: [JSON.parse] of the text
    [JSON.stringify] writes for a collection is the collection. *)
Lemma parse_stringify (ns : list Note) :
  parse (JSON_stringify ns) = Normal (Notes_value ns).
Proof.
  unfold parse. pose proof (JSON_stringify_length ns) as Hlen.
  destruct ns as [|n ns].
  - reflexivity.
  - remember (length (JSON_stringify (n :: ns))) as len. simpl in Hlen.
    replace (2 * len + 1)%nat with (S (length ns + 8 + (2 * len - length ns - 8)))%nat by lia.
    unfold JSON_stringify. cbn [app].
    destruct (stringify_Note_head n) as (cs & E & _).
    assert (Hstep : forall fuel r,
      parse_value (S fuel) (91 :: join_comma (List.map stringify_Note (n :: ns)) ++ r)
      = bind (parse_elements fuel (join_comma (List.map stringify_Note (n :: ns)) ++ r))
          (fun '(vs, rest) => Normal (JArray vs, rest))).
    { intros fuel r. destruct ns as [|m ns]; cbn [List.map join_comma]; rewrite E;
        reflexivity. }
    rewrite Hstep, parse_elements_Notes. reflexivity.
Qed.

(** *** [JSON.parse] never runs out of fuel *)

Lemma within_mono {A} (n m : nat) (c : Completion (A * jsstring)) :
  (n <= m)%nat -> within n c -> within m c.
Proof. destruct c as [[a r]| |]; simpl; auto. lia. Qed.

Lemma within_bind {A B} (n m : nat) (c : Completion (A * jsstring))
  (k : A * jsstring -> Completion (B * jsstring)) :
  within n c -> (forall a r, (length r < n)%nat -> within m (k (a, r))) ->
  within m (bind c k).
Proof. destruct c as [[a r]| |]; simpl; auto; contradiction. Qed.

Lemma within_cons_unit (n : nat) (u : N) (c : Completion (jsstring * jsstring)) :
  within n c -> within n (cons_unit u c).
Proof. destruct c as [[a r]| |]; simpl; auto. Qed.

Lemma skip_ws_length (s : jsstring) : (length (skip_ws s) <= length s)%nat.
Proof.
  induction s as [|c r IH]; simpl; [lia|].
  destruct (is_ws c); simpl; lia.
Qed.

Lemma parse_chars_within (s : jsstring) : within (length s) (parse_chars s).
Proof.
  remember (length s) as len eqn:Hlen.
  assert (Hle : (length s <= len)%nat) by lia.
  rewrite Hlen. clear Hlen. revert s Hle.
  induction len as [|len IH]; intros s Hle.
  - destruct s; [exact I | simpl in Hle; lia].
  - destruct s as [|c r]; [exact I|]. simpl in Hle. cbn [parse_chars].
    destruct (c =? 34); [simpl; lia|].
    destruct (c =? 92).
    + destruct r as [|e r1]; [exact I|].
      destruct (e =? 117).
      * destruct r1 as [|h1 [|h2 [|h3 [|h4 r2]]]]; try exact I.
        destruct (hex_of h1), (hex_of h2), (hex_of h3), (hex_of h4); try exact I.
        apply within_cons_unit. simpl in Hle.
        apply (within_mono (length r2)); [simpl; lia | apply IH; lia].
      * match goal with |- within _ (match ?o with _ => _ end) => destruct o end;
          [|exact I].
        apply within_cons_unit. simpl in Hle.
        apply (within_mono (length r1)); [simpl; lia | apply IH; lia].
    + destruct (c <? 32); [exact I|].
      apply within_cons_unit.
      apply (within_mono (length r)); [simpl; lia | apply IH; lia].
Qed.

Lemma parse_digits_length (s : jsstring) :
  (length (snd (parse_digits s)) <= length s)%nat.
Proof.
  induction s as [|c r IH]; simpl; [lia|].
  destruct (digit_of c) as [d|]; [|simpl; lia].
  destruct (parse_digits r) as [u r']. simpl in *. lia.
Qed.

Lemma parse_int_part_length (s r : jsstring) (u : uint) :
  parse_int_part s = Some (u, r) -> (length r < length s)%nat.
Proof.
  destruct s as [|c t]; simpl; [discriminate|].
  destruct (c =? 48); [intros [= ? <-]; lia|].
  destruct (digit_of c) as [d|]; [|discriminate].
  pose proof (parse_digits_length t) as H.
  destruct (parse_digits t) as [u' r']. intros [= ? <-]. simpl in H. lia.
Qed.

Lemma parse_frac_length (s r : jsstring) (u : uint) :
  parse_frac s = Some (u, r) -> (length r <= length s)%nat.
Proof.
  unfold parse_frac. destruct s as [|c t]; [intros [= ? <-]; lia|].
  destruct (N.eq_dec c 46) as [->|Hc].
  - pose proof (parse_digits_length t) as H.
    destruct (parse_digits t) as [u' r']. simpl in H.
    destruct u'; intros [= ? <-]; simpl; lia.
  - intros H.
    assert (H' : Some (Nil, c :: t) = Some (u, r)).
    { rewrite <- H. clear -Hc. destruct c as [|p]; [reflexivity|].
      do 6 (destruct p as [p|p|]; try reflexivity). congruence. }
    injection H' as _ <-. lia.
Qed.

Lemma parse_exp_length (s r : jsstring) (x : Z) :
  parse_exp s = Some (x, r) -> (length r <= length s)%nat.
Proof.
  unfold parse_exp. destruct s as [|c t]; [intros [= ? <-]; lia|].
  destruct ((c =? 101) || (c =? 69)); [|intros [= ? <-]; lia].
  assert (Hd : forall (neg : bool) (q : jsstring),
    match parse_digits q with
    | (Nil, _) => None
    | (x0, r') => Some ((if neg then - Z.of_uint x0 else Z.of_uint x0)%Z, r')
    end = Some (x, r) -> (length r <= length q)%nat).
  { intros neg q. pose proof (parse_digits_length q) as H.
    destruct (parse_digits q) as [u' r']. simpl in H.
    destruct u'; intros [= ? <-]; lia. }
  destruct t as [|d t']; [intros H; apply (Hd false) in H; simpl in *; lia|].
  destruct (N.eq_dec d 43) as [->|H43];
    [intros H; apply (Hd false) in H; simpl in *; lia|].
  destruct (N.eq_dec d 45) as [->|H45];
    [intros H; apply (Hd true) in H; simpl in *; lia|].
  intros H.
  assert (H' : match parse_digits (d :: t') with
               | (Nil, _) => None
               | (x0, r') => Some (Z.of_uint x0, r')
               end = Some (x, r)).
  { rewrite <- H. clear -H43 H45. destruct d as [|p]; [reflexivity|].
    do 6 (destruct p as [p|p|]; try reflexivity); congruence. }
  apply (Hd false) in H'. simpl in *. lia.
Qed.

Lemma parse_number_within (s : jsstring) : within (length s) (parse_number s).
Proof.
  unfold parse_number.
  assert (Hs : exists neg s1,
    match s with 45 :: r => (true, r) | _ => (false, s) end = (neg, s1) /\
    (length s1 <= length s)%nat).
  { destruct s as [|c t]; [eexists _, _; split; [reflexivity | lia]|].
    destruct (N.eq_dec c 45) as [->|Hc]; [eexists _, _; split; [reflexivity | simpl; lia]|].
    exists false, (c :: t). split; [|lia].
    destruct c as [|p]; [reflexivity|].
    do 6 (destruct p as [p|p|]; try reflexivity). congruence. }
  destruct Hs as (neg & s1 & -> & H1).
  destruct (parse_int_part s1) as [[ip s2]|] eqn:E2; [|exact I].
  apply parse_int_part_length in E2.
  destruct (parse_frac s2) as [[fp s3]|] eqn:E3; [|exact I].
  apply parse_frac_length in E3.
  destruct (parse_exp s3) as [[x s4]|] eqn:E4; [|exact I].
  apply parse_exp_length in E4. simpl. lia.
Qed.

Lemma strip_prefix_length (lit s r : jsstring) :
  strip_prefix lit s = Some r -> (length r + length lit = length s)%nat.
Proof.
  revert s. induction lit as [|a lit IH]; intros s; simpl.
  - intros [= <-]. lia.
  - destruct s as [|b s']; [discriminate|]. destruct (a =? b); [|discriminate].
    intros H. apply IH in H. simpl. lia.
Qed.

Lemma parse_literal_within (lit : string) (v : value) (s : jsstring) :
  lit <> EmptyString -> within (length s) (parse_literal lit v s).
Proof.
  intros Hne. unfold parse_literal.
  destruct (strip_prefix (js lit) s) as [r|] eqn:E; [|exact I].
  apply strip_prefix_length in E. simpl.
  destruct lit; [congruence|]. simpl in E. lia.
Qed.

Lemma descent_within (fuel : nat) :
  (forall s, (2 * length s + 1 <= fuel)%nat -> within (length s) (parse_value fuel s)) /\
  (forall s, (2 * length s + 2 <= fuel)%nat -> within (length s) (parse_elements fuel s)) /\
  (forall s, (2 * length s + 2 <= fuel)%nat -> within (length s) (parse_members fuel s)).
Proof.
  induction fuel as [|fuel (IHv & IHe & IHm)].
  { repeat split; intros s H; lia. }
  split; [|split]; intros s Hf.
  - cbn [parse_value]. pose proof (skip_ws_length s) as Hws.
    destruct (skip_ws s) as [|c r] eqn:Es; [exact I|]. simpl in Hws.
    destruct (c =? 34).
    { apply (within_bind (length r)); [apply parse_chars_within|].
      intros a q Hq. simpl. lia. }
    pose proof (skip_ws_length r) as Hwr.
    destruct (c =? 91).
    { assert (He : within (length s)
        (bind (parse_elements fuel r) (fun '(vs, rest) => Normal (JArray vs, rest)))).
      { apply (within_bind (length r)); [apply IHe; lia|].
        intros a q Hq. simpl. lia. }
      destruct (skip_ws r) as [|d q]; [exact He|]. simpl in Hwr.
      destruct (N.eq_dec d 93) as [->|Hd]; [simpl; lia|].
      destruct d as [|p]; [exact He|].
      do 7 (try (destruct p as [p|p|]; try exact He)); congruence. }
    destruct (c =? 123).
    { assert (He : within (length s)
        (bind (parse_members fuel r) (fun '(ms, rest) => Normal (make_object ms, rest)))).
      { apply (within_bind (length r)); [apply IHm; lia|].
        intros a q Hq. simpl. lia. }
      destruct (skip_ws r) as [|d q]; [exact He|]. simpl in Hwr.
      destruct (N.eq_dec d 125) as [->|Hd]; [simpl; lia|].
      destruct d as [|p]; [exact He|].
      do 7 (try (destruct p as [p|p|]; try exact He)); congruence. }
    assert (Hlen : (length (c :: r) <= length s)%nat) by (simpl; lia).
    destruct (c =? 116);
      [apply (within_mono _ _ _ Hlen), parse_literal_within; discriminate|].
    destruct (c =? 102);
      [apply (within_mono _ _ _ Hlen), parse_literal_within; discriminate|].
    destruct (c =? 110);
      [apply (within_mono _ _ _ Hlen), parse_literal_within; discriminate|].
    apply (within_mono _ _ _ Hlen), parse_number_within.
  - cbn [parse_elements].
    apply (within_bind (length s)); [apply IHv; lia|].
    intros v r Hr. pose proof (skip_ws_length r) as Hws.
    destruct (skip_ws r) as [|d q]; [exact I|]. simpl in Hws.
    destruct (N.eq_dec d 44) as [->|H44].
    { apply (within_bind (length q)); [apply IHe; lia|].
      intros a q' Hq. simpl. lia. }
    destruct (N.eq_dec d 93) as [->|H93]; [simpl; lia|].
    destruct d as [|p]; [exact I|].
    do 7 (try (destruct p as [p|p|]; try exact I)); congruence.
  - cbn [parse_members]. pose proof (skip_ws_length s) as Hws.
    destruct (skip_ws s) as [|c r]; [exact I|]. simpl in Hws.
    destruct (N.eq_dec c 34) as [->|H34].
    2:{ destruct c as [|p]; [exact I|].
        do 7 (try (destruct p as [p|p|]; try exact I)); congruence. }
    apply (within_bind (length r)); [apply parse_chars_within|].
    intros k r1 Hr1. pose proof (skip_ws_length r1) as Hw1.
    destruct (skip_ws r1) as [|c2 r2]; [exact I|]. simpl in Hw1.
    destruct (N.eq_dec c2 58) as [->|H58].
    2:{ destruct c2 as [|p]; [exact I|].
        do 7 (try (destruct p as [p|p|]; try exact I)); congruence. }
    apply (within_bind (length r2)); [apply IHv; lia|].
    intros v r3 Hr3. pose proof (skip_ws_length r3) as Hw3.
    destruct (skip_ws r3) as [|d q]; [exact I|]. simpl in Hw3.
    destruct (N.eq_dec d 44) as [->|H44].
    { apply (within_bind (length q)); [apply IHm; lia|].
      intros a q' Hq. simpl. lia. }
    destruct (N.eq_dec d 125) as [->|H125]; [simpl; lia|].
    destruct d as [|p]; [exact I|].
    do 7 (try (destruct p as [p|p|]; try exact I)); congruence.
Qed.

(** [JSON.parse] returns a value or throws a SyntaxError: the fuel of the
    descent is never used up. *)
Lemma parse_total (text : jsstring) : parse text <> OutOfFuel.
Proof.
  unfold parse.
  pose proof (proj1 (descent_within (2 * length text + 1)) text (Nat.le_refl _)) as H.
  destruct (parse_value _ text) as [[v r]| |]; simpl in *; [|discriminate|contradiction].
  destruct (skip_ws r); discriminate.
Qed.

End JSONFacts.

(** ** Selecting *)

(** C4. When [dirty] is set and the confirmation is declined, [selectNote]
    returns the state it was given: [notes], [currentNoteId], [dirty] and the
    store are all unchanged. *)
Theorem select_declined_noop (i : jsstring) (s : State) :
  dirty s = true -> selectNote false i s = s.
Proof. intros Hd. unfold selectNote. rewrite Hd. reflexivity. Qed.

Lemma select_declined_noop_witness :
  dirty (page [note_a; note_b] (Some (js "a")) true) = true /\
  selectNote false (js "b") (page [note_a; note_b] (Some (js "a")) true)
  = page [note_a; note_b] (Some (js "a")) true.
Proof.
  split; [reflexivity|].
  apply (select_declined_noop (js "b") (page [note_a; note_b] (Some (js "a")) true)).
  reflexivity.
Defined.

Lemma currentNote_absent (s : State) (i : jsstring) :
  (forall n, In n (notes s) -> id n <> i) -> currentNoteId s = Some i ->
  currentNote s = None.
Proof.
  intros Habs Hc. destruct (currentNote s) as [n|] eqn:Hn; [|reflexivity].
  apply currentNote_Some in Hn as (Hid & _ & Hin & _).
  rewrite Hc in Hid. injection Hid as ->. destruct (Habs n Hin eq_refl).
Qed.

(** C6. When no note of [notes] has the id that [currentNoteId] holds, the
    derived current note is none; so it is after [selectNote] of an id that no
    note has (the selection going through: not dirty, or confirmed). *)
Theorem current_of_missing_id_is_none (s : State) (i : jsstring) :
  (forall n, In n (notes s) -> id n <> i) ->
  (currentNoteId s = Some i -> currentNote s = None) /\
  (forall confirmed : bool, dirty s = false \/ confirmed = true ->
     currentNoteId (selectNote confirmed i s) = Some i /\
     currentNote (selectNote confirmed i s) = None).
Proof.
  intros Habs. split; [apply currentNote_absent; exact Habs|].
  intros confirmed Hgo.
  assert (E : selectNote confirmed i s = set_dirty false (set_currentNoteId (Some i) s)).
  { unfold selectNote. destruct Hgo as [-> | ->]; [reflexivity|].
    rewrite andb_false_r. reflexivity. }
  rewrite E. split; [reflexivity|].
  apply (currentNote_absent _ i); [exact Habs | reflexivity].
Qed.

Lemma current_of_missing_id_is_none_witness :
  currentNote (selectNote true (js "zz") (page [note_a; note_b] (Some (js "a")) true))
  = None.
Proof.
  refine (proj2 (proj2 (current_of_missing_id_is_none
           (page [note_a; note_b] (Some (js "a")) true) (js "zz") _) true _)).
  - intros n [<- | [<- | []]]; vm_compute; discriminate.
  - right. reflexivity.
Defined.

(** ** Deleting *)

Section Deleting.

Context (env : Env).

Lemma deleteNote_missing (i : jsstring) (s : State) :
  (forall n, In n (notes s) -> id n <> i) -> currentNoteId s <> Some i ->
  deleteNote env true i s = s.
Proof.
  intros Habs Hc. unfold deleteNote. simpl.
  unfold findIndex. rewrite findIndex_from_none by (apply find_absent; exact Habs).
  simpl. rewrite bool_decide_eq_false_2 by exact Hc. reflexivity.
Qed.

Lemma deleteNote_missing_notes (i : jsstring) (s : State) :
  (forall n, In n (notes s) -> id n <> i) ->
  notes (deleteNote env true i s) = notes s.
Proof.
  intros Habs. unfold deleteNote. simpl.
  unfold findIndex. rewrite findIndex_from_none by (apply find_absent; exact Habs).
  simpl. destruct (bool_decide _); reflexivity.
Qed.

Lemma deleteNote_found (i : jsstring) (s : State) (x : Note) :
  List.find (fun n => bool_decide (id n = i)) (notes s) = Some x ->
  exists k : nat,
    notes s !! k = Some x /\ id x = i /\
    notes (deleteNote env true i s) = delete k (notes s) /\
    deleteNote env true i s =
      let s1 := persistNotes env (trigger env (set_notes (delete k (notes s)) s)) in
      if bool_decide (currentNoteId s = Some i)
      then set_dirty false (set_currentNoteId (id <$> delete k (notes s) !! 0%nat) s1)
      else s1.
Proof.
  intros Hf. destruct (findIndex_find _ _ _ Hf) as (k & Hk & Hl & Hp).
  apply bool_decide_eq_true in Hp. exists k. split; [exact Hl|]. split; [exact Hp|].
  unfold deleteNote. simpl. rewrite Hk.
  replace (Z.of_nat k >=? 0)%Z with true by (symmetry; apply Z.geb_le; lia).
  unfold splice1. rewrite Nat2Z.id.
  unfold persistNotes, trigger. destruct (isClient env); simpl;
    destruct (bool_decide (currentNoteId s = Some i)); simpl; auto.
Qed.

Lemma deleteNote_current (i : jsstring) (s : State) :
  currentNoteId s = Some i ->
  currentNoteId (deleteNote env true i s) = id <$> head (notes (deleteNote env true i s)) /\
  dirty (deleteNote env true i s) = false.
Proof.
  intros Hc. unfold deleteNote. simpl.
  destruct (findIndex _ (notes s) >=? 0)%Z; unfold persistNotes, trigger;
    destruct (isClient env); simpl; rewrite Hc, bool_decide_eq_true_2 by reflexivity;
    simpl; rewrite head_lookup; auto.
Qed.


(** C9. On a collection whose ids are distinct (the invariant of the data
    model), a second confirmed [deleteNote] of the same id changes nothing:
    the state after two calls is the state after one, as a handler and as a
    whole event; and deleting an id that no note has leaves [notes] as it
    was. *)
Theorem delete_idempotent (i : jsstring) (s : State) :
  NoDup (List.map id (notes s)) ->
  deleteNote env true i (deleteNote env true i s) = deleteNote env true i s /\
  dispatch env (deleteNote env true i) (dispatch env (deleteNote env true i) s)
  = dispatch env (deleteNote env true i) s /\
  ((forall n, In n (notes s) -> id n <> i) ->
     notes (deleteNote env true i s) = notes s).
Proof.
  intros Hnd.
  assert (Hgone : forall n, In n (notes (deleteNote env true i s)) -> id n <> i).
  { destruct (List.find (fun n => bool_decide (id n = i)) (notes s)) as [x|] eqn:Hf.
    - destruct (deleteNote_found i s x Hf) as (k & Hk & Hx & Hn & _).
      rewrite Hn. apply (splice_found_gone (notes s) i k x Hnd Hk Hx).
    - assert (Habs : forall n, In n (notes s) -> id n <> i).
      { intros n Hin E. apply (find_none _ _ Hf) in Hin.
        apply bool_decide_eq_false in Hin. auto. }
      rewrite (deleteNote_missing_notes i s Habs). exact Habs. }
  assert (Hcur : currentNoteId (deleteNote env true i s) <> Some i).
  { destruct (bool_decide (currentNoteId s = Some i)) eqn:Hb.
    - apply bool_decide_eq_true in Hb.
      destruct (deleteNote_current i s Hb) as [Hc _].
      rewrite Hc. destruct (notes (deleteNote env true i s)) as [|m rest] eqn:E;
        [discriminate|].
      simpl. intros [= Hm]. apply (Hgone m); [left; reflexivity | exact Hm].
    - apply bool_decide_eq_false in Hb.
      assert (E : currentNoteId (deleteNote env true i s) = currentNoteId s).
      { unfold deleteNote. simpl.
        destruct (findIndex _ (notes s) >=? 0)%Z; unfold persistNotes, trigger;
          destruct (isClient env); simpl;
          rewrite bool_decide_eq_false_2 by exact Hb; reflexivity. }
      rewrite E. exact Hb. }
  split; [apply deleteNote_missing; assumption|]. split.
  - unfold dispatch.
    set (s1 := flushJobs env (deleteNote env true i s)).
    assert (Hn1 : notes s1 = notes (deleteNote env true i s)).
    { unfold s1, flushJobs, persistNotes. destruct (queued _), (isClient env); reflexivity. }
    assert (Hc1 : currentNoteId s1 = currentNoteId (deleteNote env true i s)).
    { unfold s1, flushJobs, persistNotes. destruct (queued _), (isClient env); reflexivity. }
    rewrite deleteNote_missing; [| rewrite Hn1; exact Hgone | rewrite Hc1; exact Hcur].
    unfold s1, flushJobs, persistNotes.
    destruct (queued (deleteNote env true i s)) eqn:Hq; [|rewrite Hq; reflexivity].
    destruct (isClient env); reflexivity.
  - apply deleteNote_missing_notes.
Qed.

End Deleting.

Lemma ids_distinct_a_b : NoDup (List.map id [note_a; note_b]).
Proof.
  apply NoDup_cons. split.
  - intros H. apply list_elem_of_In in H. destruct H as [H | []]. discriminate H.
  - apply NoDup_cons. split; [intros H; inversion H | apply NoDup_nil; exact I].
Qed.


Lemma delete_idempotent_witness :
  deleteNote browser true (js "a")
    (deleteNote browser true (js "a") (page [note_a; note_b] (Some (js "a")) false))
  = deleteNote browser true (js "a") (page [note_a; note_b] (Some (js "a")) false).
Proof.
  exact (proj1 (delete_idempotent browser (js "a")
                  (page [note_a; note_b] (Some (js "a")) false) ids_distinct_a_b)).
Defined.

(** ** Saving *)

Section Saving.

Context (env : Env).

(** The index that [saveCurrentNote] looks up is the one where [currentNote]
    found the note. *)
Lemma saveCurrentNote_index (s : State) (n : Note) :
  currentNote s = Some n ->
  exists k : nat,
    findIndex (fun m => bool_decide (id m = id n)) (notes s) = Z.of_nat k /\
    notes s !! k = Some n.
Proof.
  intros Hn. destruct (currentNote_Some s n Hn) as (Hc & _ & _ & k & Hk & Hl).
  exists k. split; [|exact Hl].
  rewrite <- Hk. apply findIndex_ext. intros m. apply bool_decide_ext.
  rewrite Hc. split; congruence.
Qed.

Lemma saveCurrentNote_storage (s : State) (n : Note) :
  currentNote s = Some n -> isClient env = true ->
  notes (saveCurrentNote env s) = notes s /\
  storage (saveCurrentNote env s) = Some (JSON_stringify (notes s)).
Proof.
  intros Hn Hcl. destruct (saveCurrentNote_index s n Hn) as (k & E & Hl).
  unfold saveCurrentNote. rewrite Hn. simpl. rewrite E.
  replace (Z.of_nat k =? -1)%Z with false by (symmetry; apply Z.eqb_neq; lia).
  unfold array_set, persistNotes. rewrite Nat2Z.id, Hcl, spread_same. simpl.
  rewrite (list_insert_id _ _ _ Hl). auto.
Qed.

(** C10. When the derived current note exists, [findIndex] of its id in
    [notes] is not [-1]: it is the index where [currentNote] found the note.
    So [saveCurrentNote] takes the branch that writes the copy at that index,
    persists and clears [dirty]. *)
Theorem save_finds_current_note (s : State) (n : Note) :
  currentNote s = Some n ->
  exists k : nat,
    findIndex (fun m => bool_decide (id m = id n)) (notes s) = Z.of_nat k /\
    findIndex (fun m => bool_decide (id m = id n)) (notes s) <> (-1)%Z /\
    notes s !! k = Some n /\
    saveCurrentNote env s
    = set_dirty false
        (persistNotes env (trigger env (set_notes (<[k := spread n]> (notes s)) s))) /\
    notes (saveCurrentNote env s) = notes s /\
    dirty (saveCurrentNote env s) = false /\
    (isClient env = true ->
       storage (saveCurrentNote env s) = Some (JSON_stringify (notes s))).
Proof.
  intros Hn. destruct (saveCurrentNote_index s n Hn) as (k & E & Hl).
  assert (Hsame : <[k := spread n]> (notes s) = notes s).
  { rewrite spread_same. apply list_insert_id. exact Hl. }
  assert (Hsave : saveCurrentNote env s
    = set_dirty false
        (persistNotes env (trigger env (set_notes (<[k := spread n]> (notes s)) s)))).
  { unfold saveCurrentNote. rewrite Hn. simpl. rewrite E.
    replace (Z.of_nat k =? -1)%Z with false by (symmetry; apply Z.eqb_neq; lia).
    simpl. unfold array_set. rewrite Nat2Z.id. reflexivity. }
  exists k. split; [exact E|]. split; [rewrite E; lia|]. split; [exact Hl|].
  split; [exact Hsave|]. rewrite Hsave, Hsame. unfold persistNotes, trigger.
  destruct (isClient env); simpl; split; try reflexivity; split; try reflexivity;
    intros; (reflexivity || discriminate).
Qed.

End Saving.

Lemma save_finds_current_note_witness :
  findIndex (fun m => bool_decide (id m = id note_b)) [note_a; note_b] <> (-1)%Z /\
  dirty (saveCurrentNote browser (page [note_a; note_b] (Some (js "b")) true)) = false.
Proof.
  destruct (save_finds_current_note browser
              (page [note_a; note_b] (Some (js "b")) true) note_b eq_refl)
    as (k & _ & Hne & _ & _ & _ & Hd & _).
  split; [exact Hne | exact Hd].
Defined.

(** ** Creating *)

Lemma radix36_nonempty (fuel : nat) (n : N) (acc : jsstring) :
  radix36 fuel n acc <> [].
Proof.
  revert n acc. induction fuel as [|fuel IH]; intros n acc; simpl; [discriminate|].
  destruct (n / 36 =? 0); [discriminate | apply IH].
Qed.

Lemma new_note_id_nonempty (c : CreateInputs) : id (new_note c) <> [].
Proof.
  unfold new_note. simpl. intros E. apply app_eq_nil in E as [E _]. revert E.
  destruct (now_id c); simpl; [discriminate | apply radix36_nonempty | discriminate].
Qed.

Section Creating.

Context (env : Env).

Lemma createNewNote_go (c : CreateInputs) (s : State) :
  dirty s = false \/ confirm c = true ->
  createNewNote env c s
  = set_dirty false
      (set_currentNoteId (Some (id (new_note c)))
         (persistNotes env (trigger env (set_notes (new_note c :: notes s) s)))).
Proof.
  intros Hgo. unfold createNewNote.
  destruct Hgo as [-> | ->]; [reflexivity | rewrite andb_false_r; reflexivity].
Qed.

(** C2, as the code has it. When [dirty] is false or the confirmation is
    granted, [createNewNote] builds a note with empty title and body, whose
    [created] and [updated] are two successive readings of the clock (equal
    when the clock did not advance between them), puts it in front of
    [notes], writes the whole collection to the store (in a browser), makes
    it the current note and clears [dirty]. From an empty collection the
    result holds exactly that note. *)
Theorem create_prepends_persists_selects (c : CreateInputs) (s : State) :
  dirty s = false \/ confirm c = true ->
  let s' := createNewNote env c s in
  let note := new_note c in
  title note = [] /\ body note = [] /\
  created note = now_created c /\ updated note = now_updated c /\
  (now_created c = now_updated c -> created note = updated note) /\
  notes s' = note :: notes s /\
  (isClient env = true -> storage s' = Some (JSON_stringify (note :: notes s))) /\
  currentNoteId s' = Some (id note) /\
  currentNote s' = Some note /\
  dirty s' = false /\
  (notes s = [] -> notes s' = [note] /\ length (notes s') = 1%nat).
Proof.
  intros Hgo s' note. subst s'. rewrite (createNewNote_go c s Hgo). fold note.
  assert (Hn : notes (set_dirty false
      (set_currentNoteId (Some (id note))
         (persistNotes env (trigger env (set_notes (note :: notes s) s)))))
      = note :: notes s).
  { unfold persistNotes, trigger. destruct (isClient env); reflexivity. }
  assert (Hc : currentNoteId (set_dirty false
      (set_currentNoteId (Some (id note))
         (persistNotes env (trigger env (set_notes (note :: notes s) s)))))
      = Some (id note)) by reflexivity.
  split; [reflexivity|]. split; [reflexivity|]. split; [reflexivity|].
  split; [reflexivity|]. split; [intros E; exact E|].
  split; [exact Hn|].
  split; [intros Hcl; unfold persistNotes; rewrite Hcl; reflexivity|].
  split; [exact Hc|].
  split; [apply (currentNote_head _ note (notes s) Hn Hc), new_note_id_nonempty|].
  split; [reflexivity|].
  intros He. rewrite Hn, He. split; reflexivity.
Qed.

(** C2, as the spec words it, fails: the clock can advance between the two
    readings, and then [created] and [updated] of the new note differ. *)
Lemma create_created_differs_from_updated :
  exists n : Note,
    notes (createNewNote browser create_1 (setup None)) = [n] /\
    created n <> updated n.
Proof. exists (new_note create_1). split; [reflexivity | discriminate]. Qed.

Lemma create_all_notes (cs : list CreateInputs) (s : State) :
  dirty s = false \/ List.Forall (fun c => confirm c = true) cs ->
  notes (create_all env cs s) = rev (List.map new_note cs) ++ notes s.
Proof.
  unfold create_all. revert s. induction cs as [|c cs IH]; intros s Hgo; simpl; [auto|].
  assert (Hc : dirty s = false \/ confirm c = true).
  { destruct Hgo as [Hd | Hall]; [left; exact Hd | right].
    inversion Hall; assumption. }
  assert (Hstep : notes (dispatch env (createNewNote env c) s) = new_note c :: notes s /\
                  dirty (dispatch env (createNewNote env c) s) = false).
  { unfold dispatch. rewrite (createNewNote_go c s Hc).
    unfold flushJobs, persistNotes, trigger. destruct (isClient env); simpl;
      destruct (queued s || has_window env); auto. }
  destruct Hstep as [Hn Hd'].
  rewrite (IH _ (or_introl Hd')), Hn, <- app_assoc. reflexivity.
Qed.

Lemma StronglySorted_ge_snoc (l : list Z) (a : Z) :
  StronglySorted Z.ge l -> List.Forall (Z.le a) l -> StronglySorted Z.ge (l ++ [a]).
Proof.
  induction 1 as [|b l Hs IH Hb]; intros Ha; simpl.
  - repeat constructor.
  - inversion Ha as [|? ? Hab Hal]; subst. constructor; [apply IH; exact Hal|].
    apply List.Forall_app. split; [exact Hb|]. constructor; [lia | constructor].
Qed.

Lemma StronglySorted_rev_ge (l : list Z) :
  StronglySorted Z.le l -> StronglySorted Z.ge (rev l).
Proof.
  induction 1 as [|a l Hs IH Ha]; simpl; [constructor|].
  apply StronglySorted_ge_snoc; [exact IH|].
  rewrite List.Forall_forall in *. intros x Hx. apply Ha, in_rev. exact Hx.
Qed.

(** C7. A run of [create] events from an empty collection (nothing unsaved,
    or every confirmation granted) leaves [notes] in the reverse of the order
    of creation: the note of the last call is first. When the clock never
    runs backwards, that is the order of decreasing [created]. *)
Theorem creates_are_newest_first (cs : list CreateInputs) (s : State) :
  notes s = [] ->
  dirty s = false \/ List.Forall (fun c => confirm c = true) cs ->
  notes (create_all env cs s) = rev (List.map new_note cs) /\
  (forall c cs', cs = cs' ++ [c] ->
     head (notes (create_all env cs s)) = Some (new_note c)) /\
  (StronglySorted Z.le (List.map now_created cs) ->
   StronglySorted Z.ge (List.map created (notes (create_all env cs s)))).
Proof.
  intros Hn Hgo. pose proof (create_all_notes cs s Hgo) as E.
  rewrite Hn, app_nil_r in E. rewrite E. split; [reflexivity|]. split.
  - intros c cs' ->. rewrite map_app, rev_app_distr. reflexivity.
  - intros Hs. rewrite map_rev, map_map. simpl.
    apply StronglySorted_rev_ge. exact Hs.
Qed.

End Creating.

Lemma create_prepends_persists_selects_witness :
  notes (createNewNote browser create_2 (page [note_a] (Some (js "a")) false))
  = new_note create_2 :: [note_a] /\
  dirty (createNewNote browser create_2 (page [note_a] (Some (js "a")) false)) = false.
Proof.
  destruct (create_prepends_persists_selects browser create_2
              (page [note_a] (Some (js "a")) false) (or_introl eq_refl))
    as (_ & _ & _ & _ & _ & Hn & _ & _ & _ & Hd & _).
  split; [exact Hn | exact Hd].
Defined.

Lemma creates_are_newest_first_witness :
  notes (create_all browser [create_1; create_2] (setup None))
  = [new_note create_2; new_note create_1].
Proof.
  exact (proj1 (creates_are_newest_first browser [create_1; create_2] (setup None)
                  eq_refl (or_introl eq_refl))).
Defined.

(** ** Editing *)

(** Writing through the element that [find] returned: when the write keeps it
    a match, it stays the first match, at the same index. *)
Lemma find_alter_from {A} (p : A -> bool) (f : A -> A) (l : list A) (x : A) (i : Z) :
  List.find p l = Some x -> p (f x) = true ->
  let k := Z.to_nat (findIndex_from p l i - i) in
  l !! k = Some x /\
  List.find p (alter f k l) = Some (f x) /\
  alter f k l = <[k := f x]> l /\
  findIndex_from p (alter f k l) i = findIndex_from p l i.
Proof.
  revert i. induction l as [|y l IH]; intros i Hf Hp; simpl in *; [discriminate|].
  destruct (p y) eqn:Hy.
  - injection Hf as ->. rewrite Z.sub_diag. simpl. rewrite Hp. auto.
  - destruct (findIndex_from_find p l (i + 1) x Hf) as (k & Hk & _).
    destruct (IH (i + 1)%Z Hf Hp) as (IH0 & IH1 & IH2 & IH3). rewrite Hk in *.
    replace (i + 1 + Z.of_nat k - (i + 1))%Z with (Z.of_nat k) in * by lia.
    replace (i + 1 + Z.of_nat k - i)%Z with (Z.of_nat (S k)) by lia.
    rewrite Nat2Z.id in *. simpl. rewrite Hy.
    split; [exact IH0|]. split; [exact IH1|]. split; [f_equal; exact IH2 | exact IH3].
Qed.

Section Editing.

Context (env : Env).


(** What a write through [currentNote.value] does when it keeps the id. *)
Lemma assign_current_spec (f : Note -> Note) (s : State) (n : Note) :
  currentNote s = Some n -> id (f n) = id n ->
  notes s !! current_index s = Some n /\
  notes (assign_current env f s) = <[current_index s := f n]> (notes s) /\
  current_index (assign_current env f s) = current_index s /\
  currentNoteId (assign_current env f s) = currentNoteId s /\
  dirty (assign_current env f s) = dirty s /\
  storage (assign_current env f s) = storage s /\
  queued (assign_current env f s)
  = (queued s || (negb (bool_decide (f n = n)) && has_window env)) /\
  currentNote (assign_current env f s) = Some (f n).
Proof.
  intros Hn Hid. destruct (currentNote_Some s n Hn) as (Hc & Hne & _).
  assert (Hf : List.find (fun m => bool_decide (Some (id m) = currentNoteId s)) (notes s)
               = Some n).
  { revert Hn. unfold currentNote. destruct (truthy _); simpl; [auto | discriminate]. }
  assert (Hp : bool_decide (Some (id (f n)) = currentNoteId s) = true).
  { apply bool_decide_eq_true. congruence. }
  destruct (find_alter_from _ f (notes s) n 0 Hf Hp) as (Hl & Hfind & Halter & Hidx).
  rewrite Z.sub_0_r in Hl, Hfind, Halter, Hidx.
  fold (findIndex (fun m => bool_decide (Some (id m) = currentNoteId s)) (notes s))
    in Hl, Hfind, Halter, Hidx.
  fold (current_index s) in Hl, Hfind, Halter, Hidx.
  split; [exact Hl|].
  assert (Hcur : forall q, currentNote
            {| notes := alter f (current_index s) (notes s);
               currentNoteId := currentNoteId s;
               dirty := dirty s; storage := storage s; queued := q |} = Some (f n)).
  { intros q. unfold currentNote. simpl.
    destruct (truthy (currentNoteId s)) eqn:Ht; [exact Hfind|].
    rewrite Hc in Ht. destruct (id n); [congruence | discriminate]. }
  assert (Hci : forall q, current_index
            {| notes := alter f (current_index s) (notes s);
               currentNoteId := currentNoteId s;
               dirty := dirty s; storage := storage s; queued := q |} = current_index s).
  { intros q. unfold current_index at 1. simpl. unfold findIndex at 1. rewrite Hidx.
    reflexivity. }
  unfold assign_current. rewrite Hn. fold (current_index s).
  destruct (bool_decide (f n = n)); unfold trigger, set_queued, set_notes; simpl.
  - rewrite orb_false_r. rewrite Hci, Hcur, Halter. repeat split; reflexivity.
  - rewrite Hci, Hcur, Halter. repeat split; reflexivity.
Qed.

(** C1, as the code has it. An [input] event on the current note sets
    [dirty] and its handler does not write the store. But the write has
    landed in [notes] itself, and the watcher of [notes] has queued
    [persistNotes]: in a browser the store holds the edited collection as
    soon as the handler has returned, with no call of [saveCurrentNote]. *)
Theorem edit_sets_dirty_and_watcher_persists
  (fld : Field) (v : jsstring) (now : Z) (s : State) (n : Note) :
  currentNote s = Some n ->
  let n' := set_updated now (set_field fld v n) in
  let s1 := input env fld v now s in
  dirty s1 = true /\
  storage s1 = storage s /\
  currentNote s1 = Some n' /\
  (exists k : nat, notes s !! k = Some n /\ notes s1 = <[k := n']> (notes s)) /\
  (n' <> n -> queued s1 = (queued s || has_window env)) /\
  (n' <> n -> isClient env = true ->
     storage (dispatch env (input env fld v now) s) = Some (JSON_stringify (notes s1))).
Proof.
  intros Hn n' s1.
  assert (Hid1 : id (set_field fld v n) = id n) by (destruct fld; reflexivity).
  destruct (assign_current_spec (set_field fld v) s n Hn Hid1)
    as (Hl & Hn1 & Hi1 & Hc1 & Hd1 & Hst1 & Hq1 & Hcur1).
  set (s0 := assign_current env (set_field fld v) s) in *.
  assert (Hid2 : id (set_updated now (set_field fld v n)) = id (set_field fld v n))
    by reflexivity.
  destruct (assign_current_spec (set_updated now) s0 _ Hcur1 Hid2)
    as (_ & Hn2 & _ & _ & _ & Hst2 & Hq2 & Hcur2).
  fold n' in Hn2, Hq2, Hcur2.
  assert (Es1 : s1 = set_dirty true (assign_current env (set_updated now) s0)).
  { unfold s1, input, updateCurrentNote. fold s0. rewrite Hcur1. reflexivity. }
  set (s2 := assign_current env (set_updated now) s0) in *.
  assert (Hnotes : notes s1 = <[current_index s := n']> (notes s)).
  { rewrite Es1. simpl. rewrite Hn2, Hi1, Hn1. apply list_insert_insert_eq. }
  assert (Hq : n' <> n -> queued s1 = (queued s || has_window env)).
  { intros Hne. rewrite Es1. simpl. rewrite Hq2, Hq1.
    destruct (bool_decide (set_field fld v n = n)) eqn:B1;
      destruct (bool_decide (n' = set_field fld v n)) eqn:B2; simpl;
      destruct (queued s), (has_window env); try reflexivity.
    all: apply bool_decide_eq_true in B1, B2; destruct Hne; congruence. }
  split; [rewrite Es1; reflexivity|].
  split; [rewrite Es1; simpl; congruence|].
  split; [rewrite Es1; unfold currentNote in *; exact Hcur2|].
  split; [exists (current_index s); auto|].
  split; [exact Hq|].
  intros Hne Hcl. unfold dispatch. fold s1. unfold flushJobs.
  rewrite (Hq Hne).
  assert (Hw : has_window env = true).
  { unfold isClient in Hcl. apply andb_true_iff in Hcl as [Hw _]. exact Hw. }
  rewrite Hw, orb_true_r. unfold persistNotes. rewrite Hcl. reflexivity.
Qed.

End Editing.

Lemma edit_sets_dirty_and_watcher_persists_witness :
  dirty (input browser Title (js "Groceries") 1500 page_editing_a) = true /\
  storage (input browser Title (js "Groceries") 1500 page_editing_a)
  = storage page_editing_a.
Proof.
  destruct (edit_sets_dirty_and_watcher_persists browser Title (js "Groceries") 1500
              page_editing_a note_a eq_refl)
    as (Hd & Hst & _).
  split; [exact Hd | exact Hst].
Defined.

(** C1, as the spec words it, fails: after the [input] event, and before any
    [saveCurrentNote], the store no longer holds the snapshot it held. *)
Lemma edit_changes_store_before_save :
  currentNote page_editing_a = Some note_a /\
  dirty (dispatch browser (input browser Title (js "Groceries") 1500) page_editing_a)
  = true /\
  storage (dispatch browser (input browser Title (js "Groceries") 1500) page_editing_a)
  <> storage page_editing_a /\
  storage (dispatch browser (input browser Title (js "Groceries") 1500) page_editing_a)
  = Some (JSON_stringify
            [note_b; set_updated 1500 (set_title (js "Groceries") note_a)]).
Proof.
  split; [reflexivity|]. split; [reflexivity|]. split; [|reflexivity].
  vm_compute. intros H. discriminate H.
Qed.

(** ** Loading *)

Lemma as_Note_value (n : Note) : as_Note (Note_value n) = Some n.
Proof.
  unfold as_Note, Note_value. rewrite bool_decide_eq_true_2 by reflexivity.
  unfold integer_of. simpl. rewrite !Z.mul_1_r. destruct n; reflexivity.
Qed.

Lemma as_Notes_value (ns : list Note) : as_Notes (Notes_value ns) = Some ns.
Proof.
  unfold as_Notes, Notes_value. induction ns as [|n ns IH]; [reflexivity|].
  cbn [List.map mapM]. rewrite as_Note_value. simpl. rewrite IH. reflexivity.
Qed.

Section Loading.

Context (env : Env).

Lemma loadNotes_stringify (ns : list Note) :
  isClient env = true ->
  loadNotes env (Some (JSON_stringify ns)) = Notes_value ns.
Proof.
  intros Hc. unfold loadNotes. rewrite Hc. simpl.
  rewrite JSONFacts.parse_stringify. reflexivity.
Qed.

Lemma onMounted_stringify (ns : list Note) :
  isClient env = true ->
  exists s', onMounted env (setup (Some (JSON_stringify ns))) = Some s' /\ notes s' = ns.
Proof.
  intros Hc. unfold onMounted. rewrite Hc.
  change (storage (setup (Some (JSON_stringify ns)))) with (Some (JSON_stringify ns)).
  rewrite (loadNotes_stringify ns Hc), as_Notes_value. simpl.
  eexists. split; [reflexivity|]. destruct (bool_decide _); reflexivity.
Qed.

(** C8. In a browser, what [persistNotes] writes for a collection,
    [loadNotes] reads back as that collection, and [onMounted] of a reloaded
    page makes it [notes]; so it is after [saveCurrentNote] on a current
    note. (Timestamps are integers, as [Date.now] returns them.) *)
Theorem save_then_load_roundtrip (s : State) :
  isClient env = true ->
  loadNotes env (storage (persistNotes env s)) = Notes_value (notes s) /\
  as_Notes (loadNotes env (storage (persistNotes env s))) = Some (notes s) /\
  (exists s', onMounted env (setup (storage (persistNotes env s))) = Some s' /\
              notes s' = notes s) /\
  (forall n, currentNote s = Some n ->
     exists s', onMounted env (setup (storage (saveCurrentNote env s))) = Some s' /\
                notes s' = notes (saveCurrentNote env s)).
Proof.
  intros Hc.
  assert (E : storage (persistNotes env s) = Some (JSON_stringify (notes s))).
  { unfold persistNotes. rewrite Hc. reflexivity. }
  rewrite E, (loadNotes_stringify _ Hc).
  split; [reflexivity|]. split; [apply as_Notes_value|].
  split; [apply (onMounted_stringify _ Hc)|].
  intros n Hn.
  destruct (saveCurrentNote_storage env s n Hn Hc) as [Hnotes Hst].
  rewrite Hst, Hnotes. apply (onMounted_stringify _ Hc).
Qed.

(** C5. When the item is absent, or its text is not JSON ([JSON.parse]
    throws a SyntaxError), [loadNotes] returns the empty array and nothing is
    thrown: [onMounted] ends with [notes] empty (or untouched, where there is
    no store to read). The text [not json] is such a text. *)
Theorem load_absent_or_malformed_is_empty (item : option jsstring) :
  item = None \/ (exists saved, item = Some saved /\ JSON.parse saved = SyntaxError) ->
  loadNotes env item = JSON.JArray [] /\
  (forall s, storage s = item ->
     exists s', onMounted env s = Some s' /\
                notes s' = if isClient env then [] else notes s) /\
  JSON.parse (js "not json") = SyntaxError.
Proof.
  intros Hbad.
  assert (E : loadNotes env item = JSON.JArray []).
  { unfold loadNotes. destruct (isClient env); [|reflexivity]. simpl.
    destruct Hbad as [-> | (saved & -> & Hp)]; [reflexivity|].
    rewrite Hp. destruct (bool_decide _); reflexivity. }
  split; [exact E|]. split; [|reflexivity].
  intros s Hs. unfold onMounted. rewrite Hs, E.
  destruct (isClient env); eexists; (split; [reflexivity|]); reflexivity.
Qed.

End Loading.

Lemma save_then_load_roundtrip_witness :
  loadNotes browser (storage (persistNotes browser (page [note_a; note_b] None false)))
  = Notes_value [note_a; note_b].
Proof.
  exact (proj1 (save_then_load_roundtrip browser (page [note_a; note_b] None false)
                  eq_refl)).
Defined.

Lemma load_absent_or_malformed_is_empty_witness :
  loadNotes browser (Some (js "not json")) = JSON.JArray [] /\
  exists s', onMounted browser (setup (Some (js "not json"))) = Some s' /\ notes s' = [].
Proof.
  destruct (load_absent_or_malformed_is_empty browser (Some (js "not json"))
              (or_intror (ex_intro _ (js "not json") (conj eq_refl eq_refl))))
    as (Hl & Hm & _).
  split; [exact Hl|]. exact (Hm (setup (Some (js "not json"))) eq_refl).
Defined.

(** * Further properties of the page *)

(** ** Frames *)

Lemma currentNote_ext (s s' : State) :
  notes s' = notes s -> currentNoteId s' = currentNoteId s ->
  currentNote s' = currentNote s.
Proof. intros Hn Hc. unfold currentNote. rewrite Hn, Hc. reflexivity. Qed.

Section Frames.

Context (env : Env).

Lemma flushJobs_frame (s : State) :
  notes (flushJobs env s) = notes s /\
  currentNoteId (flushJobs env s) = currentNoteId s /\
  dirty (flushJobs env s) = dirty s.
Proof.
  unfold flushJobs, persistNotes. destruct (queued s), (isClient env); auto.
Qed.

Lemma currentNote_flushJobs (s : State) :
  currentNote (flushJobs env s) = currentNote s.
Proof.
  destruct (flushJobs_frame s) as (Hn & Hc & _). apply currentNote_ext; assumption.
Qed.

(** What one [input] event does to a page with a current note. *)
Lemma input_effect (fld : Field) (v : jsstring) (now : Z) (s : State) (n : Note) :
  currentNote s = Some n ->
  notes s !! current_index s = Some n /\
  notes (input env fld v now s)
  = <[current_index s := set_updated now (set_field fld v n)]> (notes s) /\
  currentNoteId (input env fld v now s) = currentNoteId s /\
  dirty (input env fld v now s) = true /\
  storage (input env fld v now s) = storage s /\
  currentNote (input env fld v now s) = Some (set_updated now (set_field fld v n)) /\
  (set_updated now (set_field fld v n) <> n ->
   queued (input env fld v now s) = (queued s || has_window env)) /\
  (set_updated now (set_field fld v n) = n -> queued (input env fld v now s) = queued s).
Proof.
  intros Hn.
  assert (Hid1 : id (set_field fld v n) = id n) by (destruct fld; reflexivity).
  destruct (assign_current_spec env (set_field fld v) s n Hn Hid1)
    as (Hl & Hn1 & Hi1 & Hc1 & Hd1 & Hst1 & Hq1 & Hcur1).
  set (s0 := assign_current env (set_field fld v) s) in *.
  assert (Hid2 : id (set_updated now (set_field fld v n)) = id (set_field fld v n))
    by reflexivity.
  destruct (assign_current_spec env (set_updated now) s0 _ Hcur1 Hid2)
    as (_ & Hn2 & _ & Hc2 & _ & Hst2 & Hq2 & Hcur2).
  set (n' := set_updated now (set_field fld v n)) in *.
  assert (Es1 : input env fld v now s
                = set_dirty true (assign_current env (set_updated now) s0)).
  { unfold input, updateCurrentNote. fold s0. rewrite Hcur1. reflexivity. }
  rewrite Es1. simpl.
  split; [exact Hl|].
  split; [rewrite Hn2, Hi1, Hn1; apply list_insert_insert_eq|].
  split; [congruence|]. split; [reflexivity|]. split; [congruence|].
  split; [unfold currentNote in *; exact Hcur2|].
  rewrite Hq2, Hq1. split.
  - intros Hne.
    destruct (bool_decide (set_field fld v n = n)) eqn:B1;
      destruct (bool_decide (n' = set_field fld v n)) eqn:B2; simpl;
      destruct (queued s), (has_window env); try reflexivity.
    all: apply bool_decide_eq_true in B1, B2; destruct Hne; congruence.
  - intros He.
    assert (B1 : set_field fld v n = n).
    { destruct n as [i t b c u]. unfold n' in He.
      destruct fld; simpl in *; injection He as ?; subst; reflexivity. }
    assert (B2 : n' = set_field fld v n) by congruence.
    rewrite (bool_decide_eq_true_2 _ B1), (bool_decide_eq_true_2 _ B2). simpl.
    rewrite !orb_false_r. reflexivity.
Qed.

Lemma input_without_current (fld : Field) (v : jsstring) (now : Z) (s : State) :
  currentNote s = None -> input env fld v now s = s.
Proof.
  intros Hn. unfold input, assign_current. rewrite Hn.
  unfold updateCurrentNote. rewrite Hn. reflexivity.
Qed.

Lemma saveCurrentNote_effect (s : State) (n : Note) :
  currentNote s = Some n ->
  saveCurrentNote env s = set_dirty false (persistNotes env (trigger env s)).
Proof.
  intros Hn. destruct (saveCurrentNote_index s n Hn) as (k & E & Hl).
  unfold saveCurrentNote. rewrite Hn. simpl. rewrite E.
  replace (Z.of_nat k =? -1)%Z with false by (symmetry; apply Z.eqb_neq; lia).
  simpl. unfold array_set. rewrite Nat2Z.id, spread_same, (list_insert_id _ _ _ Hl).
  destruct s; reflexivity.
Qed.

End Frames.

(** ** The store follows the collection *)

Section Mirror.

Context (env : Env).

Lemma flushJobs_synced (s : State) :
  isClient env = true ->
  queued s = true \/ storage s = Some (JSON_stringify (notes s)) ->
  synced (flushJobs env s).
Proof.
  intros Hcl H. unfold flushJobs, persistNotes, synced. rewrite Hcl.
  destruct (queued s) eqn:Hq; simpl; [auto|].
  destruct H as [H|H]; [discriminate | auto].
Qed.

Lemma client_has_window : isClient env = true -> has_window env = true.
Proof. unfold isClient. intros H. apply andb_true_iff in H as [H _]. exact H. Qed.

Lemma handler_leaves_store_or_queues (ev : Event) (s : State) :
  isClient env = true -> synced s ->
  queued (handler env ev s) = true \/
  storage (handler env ev s) = Some (JSON_stringify (notes (handler env ev s))).
Proof.
  intros Hcl [Hst Hq]. pose proof (client_has_window Hcl) as Hw.
  destruct ev as [a i | c | a i | fld v now | ]; simpl.
  - right. unfold selectNote. destruct (dirty s && negb a); exact Hst.
  - unfold createNewNote. destruct (dirty s && negb (confirm c)); [right; exact Hst|].
    left. unfold persistNotes, trigger. rewrite Hcl, Hw. simpl. apply orb_true_r.
  - unfold deleteNote. destruct (negb a); [right; exact Hst|]. simpl.
    destruct (findIndex _ (notes s) >=? 0)%Z.
    + left. unfold persistNotes, trigger. rewrite Hcl, Hw. simpl.
      destruct (bool_decide _); simpl; apply orb_true_r.
    + right. destruct (bool_decide _); exact Hst.
  - destruct (currentNote s) as [n|] eqn:Hn.
    + destruct (input_effect env fld v now s n Hn)
        as (Hl & Hn1 & _ & _ & Hst1 & _ & Hq1 & _).
      destruct (decide (set_updated now (set_field fld v n) = n)) as [E|E].
      * right. rewrite Hst1, Hn1, E, (list_insert_id _ _ _ Hl). exact Hst.
      * left. rewrite (Hq1 E), Hw. apply orb_true_r.
    + right. rewrite (input_without_current env fld v now s Hn). exact Hst.
  - destruct (currentNote s) as [n|] eqn:Hn.
    + left. rewrite (saveCurrentNote_effect env s n Hn).
      unfold persistNotes, trigger. rewrite Hcl, Hw. simpl. apply orb_true_r.
    + right. unfold saveCurrentNote. rewrite Hn. exact Hst.
Qed.

Lemma step_synced (ev : Event) (s : State) :
  isClient env = true -> synced s -> synced (step env ev s).
Proof.
  intros Hcl Hs. unfold step, dispatch.
  apply (flushJobs_synced _ Hcl), (handler_leaves_store_or_queues ev s Hcl Hs).
Qed.

Lemma mounted_synced (item : option jsstring) (s : State) :
  isClient env = true -> onMounted env (setup item) = Some s ->
  synced (flushJobs env s).
Proof.
  intros Hcl Hm. apply (flushJobs_synced _ Hcl). left.
  unfold onMounted in Hm. rewrite Hcl in Hm.
  destruct (as_Notes _) as [ns|]; [|discriminate]. simpl in Hm.
  injection Hm as <-. pose proof (client_has_window Hcl) as Hw.
  destruct (bool_decide _ && _); simpl; rewrite Hw; reflexivity.
Qed.

(** X1. In a browser, whenever the page is at rest (mounted, then after
    each event and the watcher job it queued), the item of [localStorage] is
    the serialisation of [notes], and no write is pending. *)
Theorem store_mirrors_notes_between_events (s : State) :
  isClient env = true -> reachable env s -> synced s.
Proof.
  intros Hcl Hr. induction Hr as [item s Hm | s ev Hr IH Hoff].
  - exact (mounted_synced item s Hcl Hm).
  - exact (step_synced ev s Hcl IH).
Qed.

Lemma persistNotes_without_client (s : State) :
  isClient env = false -> persistNotes env s = s.
Proof. intros H. unfold persistNotes. rewrite H. reflexivity. Qed.

Lemma assign_current_storage (f : Note -> Note) (s : State) :
  storage (assign_current env f s) = storage s.
Proof.
  unfold assign_current. destruct (currentNote s); [|reflexivity].
  destruct (bool_decide _); reflexivity.
Qed.

(** X2. Where [window] or [localStorage] is missing (server-side
    rendering), nothing is read from or written to the store: mounting
    leaves the state as it is, and no event changes the item, whatever the
    handlers do to [notes]. *)
Theorem no_store_access_without_client (ev : Event) (s : State) :
  isClient env = false ->
  onMounted env s = Some s /\
  loadNotes env (storage s) = JSON.JArray [] /\
  storage (step env ev s) = storage s.
Proof.
  intros Hcl. split; [unfold onMounted; rewrite Hcl; reflexivity|].
  split; [unfold loadNotes; rewrite Hcl; reflexivity|].
  assert (Hflush : forall t, storage (flushJobs env t) = storage t).
  { intros t. unfold flushJobs. rewrite persistNotes_without_client by exact Hcl.
    destruct (queued t); reflexivity. }
  unfold step, dispatch. rewrite Hflush.
  destruct ev as [a i | c | a i | fld v now | ]; simpl.
  - unfold selectNote. destruct (dirty s && negb a); reflexivity.
  - unfold createNewNote. cbv zeta. rewrite persistNotes_without_client by exact Hcl.
    destruct (dirty s && negb (confirm c)); reflexivity.
  - unfold deleteNote. cbv zeta. rewrite persistNotes_without_client by exact Hcl.
    destruct (negb a); [reflexivity|]. simpl.
    destruct (findIndex _ (notes s) >=? 0)%Z; destruct (bool_decide _); reflexivity.
  - unfold input, updateCurrentNote.
    destruct (currentNote (assign_current env (set_field fld v) s)); simpl;
      rewrite ?assign_current_storage; reflexivity.
  - unfold saveCurrentNote. destruct (currentNote s); [|reflexivity]. cbv zeta.
    rewrite persistNotes_without_client by exact Hcl.
    destruct (negb _); reflexivity.
Qed.

End Mirror.

Lemma store_mirrors_notes_between_events_witness :
  synced (step browser (ClickAdd create_1)
            (flushJobs browser (trigger browser (set_notes [] (setup None))))).
Proof.
  apply (store_mirrors_notes_between_events browser _ eq_refl).
  apply reach_step; [|reflexivity].
  apply (reach_mounted browser None). reflexivity.
Defined.

Lemma no_store_access_without_client_witness :
  storage (step server (ClickAdd create_1) (setup None)) = storage (setup None).
Proof.
  exact (proj2 (proj2 (no_store_access_without_client server (ClickAdd create_1)
                         (setup None) eq_refl))).
Defined.

(** ** Deleting, in detail *)

Lemma findIndex_from_first {A} (p : A -> bool) (l : list A) (i : Z) (x : A) :
  List.find p l = Some x ->
  exists k : nat,
    findIndex_from p l i = (i + Z.of_nat k)%Z /\ l !! k = Some x /\ p x = true /\
    List.Forall (fun y => p y = false) (take k l).
Proof.
  revert i. induction l as [|y l IH]; intros i Hf; simpl in *; [discriminate|].
  destruct (p y) eqn:Hp.
  - injection Hf as ->. exists 0%nat. rewrite Z.add_0_r. repeat split; auto.
  - destruct (IH (i + 1)%Z Hf) as (k & Hk & Hl & Hx & Hall).
    exists (S k). rewrite Hk. split; [lia|]. repeat split; auto.
    simpl. constructor; assumption.
Qed.

Lemma filter_keeps_all {A} (f : A -> bool) (l : list A) :
  (forall y, In y l -> f y = true) -> List.filter f l = l.
Proof.
  induction l as [|y l IH]; intros H; simpl; [reflexivity|].
  rewrite (H y (or_introl eq_refl)), IH; [reflexivity|].
  intros z Hz. apply H. right. exact Hz.
Qed.

Lemma filter_is_delete (l : list Note) (i : jsstring) (k : nat) (x : Note) :
  NoDup (List.map id l) -> l !! k = Some x -> id x = i ->
  List.filter (fun m => negb (bool_decide (id m = i))) l = delete k l.
Proof.
  intros Hnd Hk Hx.
  pose proof (splice_found_gone l i k x Hnd Hk Hx) as Hgone.
  assert (Hbefore : forall j y, (j < k)%nat -> l !! j = Some y -> id y <> i).
  { intros j y Hj Hy. apply Hgone. apply list_elem_of_In, list_elem_of_lookup.
    exists j. rewrite list_lookup_delete_lt by exact Hj. exact Hy. }
  clear Hnd. revert k Hk Hgone Hbefore.
  induction l as [|y l IH]; intros k Hk Hgone Hbefore; [destruct k; discriminate|].
  destruct k as [|k]; simpl in *.
  - injection Hk as ->. rewrite bool_decide_eq_true_2 by exact Hx. simpl.
    apply filter_keeps_all. intros z Hz.
    rewrite bool_decide_eq_false_2; [reflexivity | apply Hgone; exact Hz].
  - rewrite bool_decide_eq_false_2
      by (apply (Hbefore 0%nat y); [lia | reflexivity]).
    simpl. f_equal. apply (IH k Hk).
    + intros z Hz. apply Hgone. right. exact Hz.
    + intros j z Hj Hz. apply (Hbefore (S j) z); [lia | exact Hz].
Qed.

Lemma find_delete_other {A} (p : A -> bool) (l : list A) (k : nat) (x : A) :
  l !! k = Some x -> p x = false -> List.find p (delete k l) = List.find p l.
Proof.
  revert k. induction l as [|y l IH]; intros k Hk Hp; [destruct k; discriminate|].
  destruct k as [|k]; simpl in *.
  - injection Hk as ->. rewrite Hp. reflexivity.
  - destruct (p y); [reflexivity | apply (IH k Hk Hp)].
Qed.

Section DeletingMore.

Context (env : Env).

(** X3. A confirmed [deleteNote] removes one note at most: the first one
    with the id. The notes before it and after it stay, in their order, and
    the collection is one shorter; when no note has the id, [notes] is
    untouched. *)
Theorem delete_removes_first_match_only (i : jsstring) (s : State) :
  ((forall n, In n (notes s) -> id n <> i) /\
   notes (deleteNote env true i s) = notes s) \/
  (exists (k : nat) (x : Note),
     notes s !! k = Some x /\ id x = i /\
     List.Forall (fun y => id y <> i) (take k (notes s)) /\
     notes (deleteNote env true i s) = take k (notes s) ++ drop (S k) (notes s) /\
     S (length (notes (deleteNote env true i s))) = length (notes s)).
Proof.
  destruct (List.find (fun n => bool_decide (id n = i)) (notes s)) as [x|] eqn:Hf.
  - right. destruct (findIndex_from_first _ _ 0 _ Hf) as (k & Hk & Hl & Hp & Hall).
    apply bool_decide_eq_true in Hp.
    assert (Hd : notes (deleteNote env true i s) = delete k (notes s)).
    { change (findIndex_from (fun n => bool_decide (id n = i)) (notes s) 0)
        with (findIndex (fun n => bool_decide (id n = i)) (notes s)) in Hk.
      rewrite Z.add_0_l in Hk.
      unfold deleteNote. simpl. rewrite Hk.
      replace (Z.of_nat k >=? 0)%Z with true by (symmetry; apply Z.geb_le; lia).
      unfold splice1. rewrite Nat2Z.id. unfold persistNotes, trigger.
      destruct (isClient env); simpl; destruct (bool_decide _); reflexivity. }
    exists k, x. split; [exact Hl|]. split; [exact Hp|]. split.
    { eapply List.Forall_impl; [|exact Hall]. intros y Hy.
      apply bool_decide_eq_false in Hy. exact Hy. }
    rewrite Hd. split; [apply delete_take_drop|].
    rewrite length_delete by (exists x; exact Hl).
    apply lookup_lt_Some in Hl. lia.
  - left. assert (Habs : forall n, In n (notes s) -> id n <> i).
    { intros n Hin E. apply (find_none _ _ Hf) in Hin.
      apply bool_decide_eq_false in Hin. auto. }
    split; [exact Habs | apply (deleteNote_missing_notes env i s Habs)].
Qed.

End DeletingMore.

Section DeletingFrames.

Context (env : Env).

(** X4. On a collection whose ids are distinct, a confirmed [deleteNote]
    leaves exactly the notes with another id, in their order. *)
Theorem delete_keeps_the_other_ids (i : jsstring) (s : State) :
  NoDup (List.map id (notes s)) ->
  notes (deleteNote env true i s)
  = List.filter (fun m => negb (bool_decide (id m = i))) (notes s).
Proof.
  intros Hnd.
  destruct (List.find (fun n => bool_decide (id n = i)) (notes s)) as [x|] eqn:Hf.
  - destruct (deleteNote_found env i s x Hf) as (k & Hl & Hx & Hn & _).
    rewrite Hn. symmetry. apply (filter_is_delete _ i k x Hnd Hl Hx).
  - assert (Habs : forall n, In n (notes s) -> id n <> i).
    { intros n Hin E. apply (find_none _ _ Hf) in Hin.
      apply bool_decide_eq_false in Hin. auto. }
    rewrite (deleteNote_missing_notes env i s Habs). symmetry.
    apply filter_keeps_all. intros y Hy.
    rewrite bool_decide_eq_false_2; [reflexivity | apply Habs; exact Hy].
Qed.

Lemma deleteNote_other (i : jsstring) (s : State) :
  currentNoteId s <> Some i ->
  currentNoteId (deleteNote env true i s) = currentNoteId s /\
  dirty (deleteNote env true i s) = dirty s /\
  currentNote (deleteNote env true i s) = currentNote s.
Proof.
  intros Hc.
  destruct (List.find (fun n => bool_decide (id n = i)) (notes s)) as [x|] eqn:Hf.
  - destruct (deleteNote_found env i s x Hf) as (k & Hl & Hx & Hn & Hs).
    assert (Hcd : currentNoteId (deleteNote env true i s) = currentNoteId s).
    { rewrite Hs. rewrite bool_decide_eq_false_2 by exact Hc.
      unfold persistNotes, trigger. destruct (isClient env); reflexivity. }
    split; [exact Hcd|]. split.
    + rewrite Hs. rewrite bool_decide_eq_false_2 by exact Hc.
      unfold persistNotes, trigger. destruct (isClient env); reflexivity.
    + unfold currentNote. rewrite Hcd, Hn.
      destruct (truthy (currentNoteId s)); simpl; [|reflexivity].
      apply (find_delete_other _ _ k x Hl).
      apply bool_decide_eq_false. intros E. apply Hc. rewrite <- E, Hx. reflexivity.
  - assert (Habs : forall n, In n (notes s) -> id n <> i).
    { intros n Hin E. apply (find_none _ _ Hf) in Hin.
      apply bool_decide_eq_false in Hin. auto. }
    rewrite (deleteNote_missing env i s Habs Hc). repeat split; reflexivity.
Qed.

(** X5. Deleting a note that is not the current one leaves the selection
    alone: [currentNoteId], [dirty] and the derived current note (with its
    unsaved edits) are what they were, whether the confirmation is granted
    or not, and as a handler and as a whole event. *)
Theorem delete_other_keeps_selection (confirmed : bool) (i : jsstring) (s : State) :
  currentNoteId s <> Some i ->
  (currentNoteId (deleteNote env confirmed i s) = currentNoteId s /\
   dirty (deleteNote env confirmed i s) = dirty s /\
   currentNote (deleteNote env confirmed i s) = currentNote s) /\
  (currentNoteId (step env (ClickDelete confirmed i) s) = currentNoteId s /\
   dirty (step env (ClickDelete confirmed i) s) = dirty s /\
   currentNote (step env (ClickDelete confirmed i) s) = currentNote s).
Proof.
  intros Hc.
  assert (H : currentNoteId (deleteNote env confirmed i s) = currentNoteId s /\
              dirty (deleteNote env confirmed i s) = dirty s /\
              currentNote (deleteNote env confirmed i s) = currentNote s).
  { destruct confirmed; [apply (deleteNote_other i s Hc) | repeat split; reflexivity]. }
  split; [exact H|]. destruct H as (H1 & H2 & H3).
  unfold step, dispatch. simpl handler. rewrite currentNote_flushJobs.
  destruct (flushJobs_frame env (deleteNote env confirmed i s)) as (_ & -> & ->).
  auto.
Qed.

End DeletingFrames.

Lemma delete_keeps_the_other_ids_witness :
  notes (deleteNote browser true (js "a") (page [note_a; note_b] (Some (js "b")) true))
  = List.filter (fun m => negb (bool_decide (id m = js "a"))) [note_a; note_b].
Proof.
  exact (delete_keeps_the_other_ids browser (js "a")
           (page [note_a; note_b] (Some (js "b")) true) ids_distinct_a_b).
Defined.

Lemma delete_other_keeps_selection_witness :
  currentNote (deleteNote browser true (js "a") (page [note_a; note_b] (Some (js "b")) true))
  = currentNote (page [note_a; note_b] (Some (js "b")) true).
Proof.
  refine (proj2 (proj2 (proj1 (delete_other_keeps_selection browser true (js "a")
            (page [note_a; note_b] (Some (js "b")) true) _)))).
  vm_compute. discriminate.
Defined.

(** ** What an event does to the identity of the notes *)

Section Identity.

Context (env : Env).

(** The events seen through a property [f] of a note that typing does not
    change. *)
Lemma step_projection {A} (f : Note -> A) (ev : Event) (s : State) :
  (forall fld v now n, f (set_updated now (set_field fld v n)) = f n) ->
  match ev with
  | ClickAdd c =>
      List.map f (notes (step env ev s)) = List.map f (notes s) \/
      List.map f (notes (step env ev s)) = f (new_note c) :: List.map f (notes s)
  | ClickDelete _ _ =>
      List.map f (notes (step env ev s)) `sublist_of` List.map f (notes s)
  | _ => List.map f (notes (step env ev s)) = List.map f (notes s)
  end.
Proof.
  intros Hf. unfold step, dispatch.
  destruct (flushJobs_frame env (handler env ev s)) as (-> & _ & _).
  destruct ev as [a i | c | a i | fld v now | ]; simpl.
  - unfold selectNote. destruct (dirty s && negb a); reflexivity.
  - unfold createNewNote. destruct (dirty s && negb (confirm c)); [left; reflexivity|].
    right. unfold persistNotes, trigger. destruct (isClient env); reflexivity.
  - destruct a; [|reflexivity].
    destruct (List.find (fun n => bool_decide (id n = i)) (notes s)) as [x|] eqn:Hfind.
    + destruct (deleteNote_found env i s x Hfind) as (k & _ & _ & -> & _).
      rewrite !map_fmap, list_fmap_delete. apply sublist_delete.
    + rewrite deleteNote_missing_notes; [reflexivity|].
      intros n Hin E. apply (find_none _ _ Hfind) in Hin.
      apply bool_decide_eq_false in Hin. auto.
  - destruct (currentNote s) as [n|] eqn:Hn.
    + destruct (input_effect env fld v now s n Hn) as (Hl & -> & _).
      rewrite !map_fmap, list_fmap_insert, Hf. apply list_insert_id.
      rewrite list_lookup_fmap, Hl. reflexivity.
    + rewrite (input_without_current env fld v now s Hn). reflexivity.
  - destruct (currentNote s) as [n|] eqn:Hn.
    + rewrite (saveCurrentNote_effect env s n Hn).
      unfold persistNotes, trigger. destruct (isClient env); reflexivity.
    + unfold saveCurrentNote. rewrite Hn. reflexivity.
Qed.

(** X6. No event changes the id or the creation time of a note, or the
    order of the notes: selecting, typing and saving leave the list of
    (id, created) pairs as it is, deleting leaves a sublist of it, and
    creating puts the pair of the new note in front (or does nothing, when
    declined). *)
Theorem events_keep_id_and_created (ev : Event) (s : State) :
  match ev with
  | ClickAdd c =>
      List.map (fun n => (id n, created n)) (notes (step env ev s))
      = List.map (fun n => (id n, created n)) (notes s) \/
      List.map (fun n => (id n, created n)) (notes (step env ev s))
      = (id (new_note c), now_created c)
        :: List.map (fun n => (id n, created n)) (notes s)
  | ClickDelete _ _ =>
      List.map (fun n => (id n, created n)) (notes (step env ev s))
      `sublist_of` List.map (fun n => (id n, created n)) (notes s)
  | _ =>
      List.map (fun n => (id n, created n)) (notes (step env ev s))
      = List.map (fun n => (id n, created n)) (notes s)
  end.
Proof.
  apply (step_projection (fun n => (id n, created n)) ev s).
  intros fld v now n. destruct fld; reflexivity.
Qed.

(** X7. The ids stay distinct: an event keeps them so, provided the id that
    [createNewNote] generates is not already the id of a note. *)
Theorem events_keep_ids_distinct (ev : Event) (s : State) :
  NoDup (List.map id (notes s)) ->
  (forall c, ev = ClickAdd c -> ~ In (id (new_note c)) (List.map id (notes s))) ->
  NoDup (List.map id (notes (step env ev s))).
Proof.
  intros Hnd Hfresh.
  assert (Hid : forall fld v now n, id (set_updated now (set_field fld v n)) = id n)
    by (intros fld v now n; destruct fld; reflexivity).
  pose proof (step_projection id ev s Hid) as H.
  destruct ev as [a i | c | a i | fld v now | ].
  - rewrite H. exact Hnd.
  - destruct H as [-> | ->]; [exact Hnd|].
    apply NoDup_cons. split; [|exact Hnd].
    intros Hin. apply list_elem_of_In in Hin. exact (Hfresh c eq_refl Hin).
  - exact (sublist_NoDup _ _ Hnd H).
  - rewrite H. exact Hnd.
  - rewrite H. exact Hnd.
Qed.

End Identity.

Lemma events_keep_ids_distinct_witness :
  NoDup (List.map id (notes (step browser (ClickAdd create_1)
                               (page [note_a; note_b] (Some (js "a")) false)))).
Proof.
  apply (events_keep_ids_distinct browser (ClickAdd create_1)
           (page [note_a; note_b] (Some (js "a")) false) ids_distinct_a_b).
  intros c [= <-]. vm_compute. intros [H | [H | []]]; discriminate H.
Defined.

(** ** Events, one after the other *)

Section Sequences.

Context (env : Env).

(** X8. Creating a note and deleting it again gives the collection back:
    after a [createNewNote] that went through and a confirmed [deleteNote]
    of the new note's id, [notes] is what it was, the first note (if any) is
    current and nothing is unsaved. *)
Theorem create_then_delete_restores_notes (c : CreateInputs) (s : State) :
  dirty s = false \/ confirm c = true ->
  notes (deleteNote env true (id (new_note c)) (createNewNote env c s)) = notes s /\
  currentNoteId (deleteNote env true (id (new_note c)) (createNewNote env c s))
  = id <$> head (notes s) /\
  dirty (deleteNote env true (id (new_note c)) (createNewNote env c s)) = false.
Proof.
  intros Hgo. set (s1 := createNewNote env c s).
  assert (Hn1 : notes s1 = new_note c :: notes s).
  { unfold s1. rewrite (createNewNote_go env c s Hgo).
    unfold persistNotes, trigger. destruct (isClient env); reflexivity. }
  assert (Hc1 : currentNoteId s1 = Some (id (new_note c))).
  { unfold s1. rewrite (createNewNote_go env c s Hgo). reflexivity. }
  assert (Hidx : findIndex (fun n => bool_decide (id n = id (new_note c))) (notes s1)
                 = 0%Z).
  { rewrite Hn1. unfold findIndex. cbn [findIndex_from].
    rewrite bool_decide_eq_true_2 by reflexivity. reflexivity. }
  assert (Hn2 : notes (deleteNote env true (id (new_note c)) s1) = notes s).
  { unfold deleteNote. cbv zeta. rewrite Hidx. cbn [negb Z.geb Z.compare].
    unfold splice1, persistNotes, trigger. rewrite Hn1.
    destruct (isClient env); simpl; destruct (bool_decide _); reflexivity. }
  destruct (deleteNote_current env (id (new_note c)) s1 Hc1) as [Hc2 Hd2].
  split; [exact Hn2|]. split; [rewrite Hc2, Hn2; reflexivity | exact Hd2].
Qed.

(** X9. Typing, saving, reloading: in a browser, after an [input] event on
    the current note and a click on Save, nothing is unsaved, [notes] holds
    the edited note where the note was, and a page mounted over the store
    shows that same collection. *)
Theorem edit_save_reload (fld : Field) (v : jsstring) (now : Z) (s : State) (n : Note) :
  isClient env = true -> currentNote s = Some n ->
  let s2 := step env ClickSave (step env (TypeIn fld v now) s) in
  dirty s2 = false /\
  notes s !! current_index s = Some n /\
  notes s2 = <[current_index s := set_updated now (set_field fld v n)]> (notes s) /\
  currentNote s2 = Some (set_updated now (set_field fld v n)) /\
  storage s2 = Some (JSON_stringify (notes s2)) /\
  exists s3, onMounted env (setup (storage s2)) = Some s3 /\ notes s3 = notes s2.
Proof.
  intros Hcl Hn s2.
  destruct (input_effect env fld v now s n Hn) as (Hl & Hn1 & Hc1 & _ & _ & Hcur1 & _).
  set (n' := set_updated now (set_field fld v n)) in *.
  set (s1 := step env (TypeIn fld v now) s) in *.
  assert (Hs1 : notes s1 = <[current_index s := n']> (notes s) /\ currentNote s1 = Some n').
  { unfold s1, step, dispatch. rewrite currentNote_flushJobs.
    destruct (flushJobs_frame env (handler env (TypeIn fld v now) s)) as (-> & _ & _).
    simpl. auto. }
  destruct Hs1 as [Hn1' Hcur1'].
  assert (Hs2 : notes s2 = notes s1 /\ currentNoteId s2 = currentNoteId s1 /\
                dirty s2 = false /\ storage s2 = Some (JSON_stringify (notes s1))).
  { unfold s2, step, dispatch. simpl handler.
    rewrite (saveCurrentNote_effect env s1 n' Hcur1').
    unfold flushJobs, persistNotes, trigger. rewrite Hcl.
    destruct (queued s1 || has_window env); simpl; auto. }
  destruct Hs2 as (Hn2 & Hc2 & Hd2 & Hst2).
  split; [exact Hd2|]. split; [exact Hl|]. split; [rewrite Hn2; exact Hn1'|].
  split; [rewrite (currentNote_ext s1 s2 Hn2 Hc2); exact Hcur1'|].
  split; [rewrite Hn2; exact Hst2|].
  rewrite Hst2, Hn2. apply (onMounted_stringify env _ Hcl).
Qed.

(** X10. Reloading shows the first note: in a browser, a page mounted over
    the text of a collection that is not empty holds that collection, with
    nothing unsaved and its first note current. *)
Theorem reload_selects_first_note (n : Note) (ns : list Note) :
  isClient env = true ->
  exists s',
    onMounted env (setup (Some (JSON_stringify (n :: ns)))) = Some s' /\
    notes s' = n :: ns /\
    currentNoteId s' = Some (id n) /\
    dirty s' = false /\
    (id n <> [] -> currentNote s' = Some n).
Proof.
  intros Hcl. unfold onMounted. rewrite Hcl.
  change (storage (setup (Some (JSON_stringify (n :: ns)))))
    with (Some (JSON_stringify (n :: ns))).
  rewrite (loadNotes_stringify env _ Hcl), as_Notes_value. simpl.
  eexists. split; [reflexivity|]. simpl.
  split; [reflexivity|]. split; [reflexivity|]. split; [reflexivity|].
  intros Hne. apply (currentNote_head _ n ns); [reflexivity | reflexivity | exact Hne].
Qed.

End Sequences.

Lemma create_then_delete_restores_notes_witness :
  notes (deleteNote browser true (id (new_note create_1))
           (createNewNote browser create_1 (page [note_a] (Some (js "a")) false)))
  = [note_a].
Proof.
  exact (proj1 (create_then_delete_restores_notes browser create_1
                  (page [note_a] (Some (js "a")) false) (or_introl eq_refl))).
Defined.

Lemma edit_save_reload_witness :
  dirty (step browser ClickSave (step browser (TypeIn Body (js "eggs") 1700)
                                   page_editing_a)) = false.
Proof.
  exact (proj1 (edit_save_reload browser Body (js "eggs") 1700 page_editing_a note_a
                  eq_refl eq_refl)).
Defined.

Lemma reload_selects_first_note_witness :
  exists s',
    onMounted browser (setup (Some (JSON_stringify [note_b; note_a]))) = Some s' /\
    currentNoteId s' = Some (js "b").
Proof.
  destruct (reload_selects_first_note browser note_b [note_a] eq_refl)
    as (s' & Hm & _ & Hc & _).
  exists s'. split; [exact Hm | exact Hc].
Defined.

(** ** The selection *)

Lemma same_id_same_note (l : list Note) (m n : Note) :
  NoDup (List.map id l) -> In m l -> In n l -> id m = id n -> m = n.
Proof.
  induction l as [|y l IH]; intros Hnd Hm Hn E; [destruct Hm|].
  simpl in Hnd. apply NoDup_cons in Hnd as [Hy Hnd].
  assert (Hout : forall z, In z l -> id z <> id y).
  { intros z Hz Ez. apply Hy. rewrite <- Ez. apply list_elem_of_In.
    apply in_map. exact Hz. }
  destruct Hm as [<- | Hm], Hn as [<- | Hn].
  - reflexivity.
  - destruct (Hout n Hn). congruence.
  - destruct (Hout m Hm). congruence.
  - apply (IH Hnd Hm Hn E).
Qed.

Lemma find_pred_ext {A} (p q : A -> bool) (l : list A) :
  (forall x, p x = q x) -> List.find p l = List.find q l.
Proof.
  intros E. induction l as [|y l IH]; simpl; [reflexivity|].
  rewrite E, IH. reflexivity.
Qed.

Lemma find_present (i : jsstring) (l : list Note) (n : Note) :
  In n l -> id n = i ->
  exists m, List.find (fun x => bool_decide (id x = i)) l = Some m /\
            In m l /\ id m = i.
Proof.
  intros Hin Hid.
  destruct (List.find (fun x => bool_decide (id x = i)) l) as [m|] eqn:Hf.
  - exists m. apply find_some in Hf as [Hm Hp]. apply bool_decide_eq_true in Hp. auto.
  - apply (find_none _ _ Hf) in Hin. apply bool_decide_eq_false in Hin. contradiction.
Qed.

(** X11. With distinct ids, the sidebar marks one button as selected, the
    one of the derived current note: a note of [notes] has the class
    [selected] exactly when it is [currentNote]. *)
Theorem sidebar_marks_the_current_note (s : State) (n : Note) :
  NoDup (List.map id (notes s)) -> currentNote s = Some n ->
  forall m, In m (notes s) -> (selected s m = true <-> m = n).
Proof.
  intros Hnd Hn m Hm. apply currentNote_Some in Hn as (Hc & _ & Hin & _).
  unfold selected. rewrite Hc. split.
  - intros H. apply bool_decide_eq_true in H. injection H as H.
    apply (same_id_same_note (notes s) m n Hnd Hm Hin H).
  - intros ->. apply bool_decide_eq_true. reflexivity.
Qed.

(** X12. A click on a note of the sidebar (nothing unsaved, or the
    confirmation granted) makes a note with that id the derived current
    note and clears [dirty]; with distinct ids it is the note clicked. The
    id must be a non-empty string: the empty one counts as no selection. *)
Theorem select_existing_note_makes_it_current
  (confirmed : bool) (s : State) (n : Note) :
  In n (notes s) -> id n <> [] -> dirty s = false \/ confirmed = true ->
  dirty (selectNote confirmed (id n) s) = false /\
  notes (selectNote confirmed (id n) s) = notes s /\
  exists m, currentNote (selectNote confirmed (id n) s) = Some m /\
            id m = id n /\ In m (notes s) /\
            (NoDup (List.map id (notes s)) -> m = n).
Proof.
  intros Hin Hne Hgo.
  assert (E : selectNote confirmed (id n) s
              = set_dirty false (set_currentNoteId (Some (id n)) s)).
  { unfold selectNote. destruct Hgo as [-> | ->]; [reflexivity|].
    rewrite andb_false_r. reflexivity. }
  rewrite E. split; [reflexivity|]. split; [reflexivity|].
  destruct (find_present (id n) (notes s) n Hin eq_refl) as (m & Hf & Hm & Hid).
  exists m. split.
  - unfold currentNote. simpl. destruct (id n) eqn:Ei; [congruence|]. simpl.
    rewrite <- Hf. apply find_pred_ext. intros x. apply bool_decide_ext.
    split; congruence.
  - split; [exact Hid|]. split; [exact Hm|].
    intros Hnd. apply (same_id_same_note (notes s) m n Hnd Hm Hin Hid).
Qed.

Lemma sidebar_marks_the_current_note_witness :
  selected (page [note_a; note_b] (Some (js "b")) false) note_b = true <-> note_b = note_b.
Proof.
  apply (sidebar_marks_the_current_note (page [note_a; note_b] (Some (js "b")) false)
           note_b ids_distinct_a_b eq_refl note_b).
  right. left. reflexivity.
Defined.

Lemma select_existing_note_makes_it_current_witness :
  dirty (selectNote true (id note_b) (page [note_a; note_b] (Some (js "a")) true)) = false.
Proof.
  refine (proj1 (select_existing_note_makes_it_current true
                   (page [note_a; note_b] (Some (js "a")) true) note_b _ _ _)).
  - right. left. reflexivity.
  - discriminate.
  - right. reflexivity.
Defined.

(** ** What holds of every state of the page *)

Section Invariant.

Context (env : Env).

Lemma selection_sound_ext (s s' : State) :
  notes s' = notes s -> currentNoteId s' = currentNoteId s -> dirty s' = dirty s ->
  selection_sound s -> selection_sound s'.
Proof.
  intros Hn Hc Hd [Hsel Hdirty]. split.
  - unfold selection_in_notes in *. rewrite Hc, Hn. exact Hsel.
  - rewrite Hd, (currentNote_ext s s' Hn Hc). exact Hdirty.
Qed.

Lemma selection_sound_clean (s : State) :
  selection_in_notes s -> dirty s = false -> selection_sound s.
Proof. intros Hsel Hd. split; [exact Hsel|]. rewrite Hd. discriminate. Qed.

Lemma In_delete_other (l : list Note) (k : nat) (x n : Note) :
  l !! k = Some x -> In n l -> id n <> id x -> In n (delete k l).
Proof.
  intros Hk Hin Hne. rewrite delete_take_drop.
  rewrite <- (take_drop_middle l k x Hk) in Hin.
  apply in_app_or in Hin. apply in_or_app.
  destruct Hin as [H | [<- | H]]; [left; exact H | congruence | right; exact H].
Qed.

Lemma handler_selection_sound (ev : Event) (s : State) :
  selection_sound s -> offered s ev = true -> selection_sound (handler env ev s).
Proof.
  intros Hinv Hoff. pose proof Hinv as [Hsel Hdirty].
  destruct ev as [a i | c | a i | fld v now | ]; simpl in *.
  - unfold selectNote. destruct (dirty s && negb a); [exact Hinv|].
    apply selection_sound_clean; [|reflexivity].
    unfold selection_in_notes. simpl.
    apply existsb_exists in Hoff as (n & Hin & Hp).
    apply bool_decide_eq_true in Hp. exists n. auto.
  - unfold createNewNote. destruct (dirty s && negb (confirm c)); [exact Hinv|].
    apply selection_sound_clean; [|reflexivity].
    unfold selection_in_notes, persistNotes, trigger. simpl.
    exists (new_note c). split; [|reflexivity].
    destruct (isClient env); left; reflexivity.
  - destruct a; [|exact Hinv].
    destruct (decide (currentNoteId s = Some i)) as [Hc|Hc].
    + destruct (deleteNote_current env i s Hc) as [Hc' Hd'].
      apply selection_sound_clean; [|exact Hd'].
      unfold selection_in_notes. rewrite Hc'.
      destruct (notes (deleteNote env true i s)) as [|m rest]; simpl; [exact I|].
      exists m. split; [left; reflexivity | reflexivity].
    + destruct (deleteNote_other env i s Hc) as (Hc' & Hd' & Hcur').
      split.
      * unfold selection_in_notes in *. rewrite Hc'.
        destruct (currentNoteId s) as [j|] eqn:Ej; [|exact I].
        destruct Hsel as (n & Hin & Hid). exists n. split; [|exact Hid].
        destruct (List.find (fun x => bool_decide (id x = i)) (notes s)) as [x|] eqn:Hf.
        -- destruct (deleteNote_found env i s x Hf) as (k & Hl & Hx & -> & _).
           apply (In_delete_other _ k x n Hl Hin). congruence.
        -- rewrite deleteNote_missing_notes; [exact Hin|].
           intros z Hz E. apply (find_none _ _ Hf) in Hz.
           apply bool_decide_eq_false in Hz. auto.
      * rewrite Hd', Hcur'. exact Hdirty.
  - destruct (currentNote s) as [n|] eqn:Hn.
    + destruct (input_effect env fld v now s n Hn) as (Hl & Hn1 & Hc1 & _ & _ & Hcur1 & _).
      split; [|rewrite Hcur1; discriminate].
      unfold selection_in_notes. rewrite Hc1.
      apply currentNote_Some in Hn as (Hc & _). rewrite Hc.
      exists (set_updated now (set_field fld v n)). split; [|destruct fld; reflexivity].
      rewrite Hn1. apply list_elem_of_In, list_elem_of_lookup.
      exists (current_index s). apply list_lookup_insert_eq.
      apply lookup_lt_Some in Hl. exact Hl.
    + rewrite (input_without_current env fld v now s Hn). exact Hinv.
  - destruct (currentNote s) as [n|] eqn:Hn.
    + rewrite (saveCurrentNote_effect env s n Hn).
      apply selection_sound_clean; [|reflexivity].
      unfold selection_in_notes, persistNotes, trigger in *.
      destruct (isClient env); exact Hsel.
    + unfold saveCurrentNote. rewrite Hn. exact Hinv.
Qed.

Lemma mounted_selection_sound (item : option jsstring) (s : State) :
  onMounted env (setup item) = Some s -> selection_sound s.
Proof.
  unfold onMounted. destruct (isClient env).
  - destruct (as_Notes _) as [ns|]; [|discriminate]. simpl. intros [= <-].
    apply selection_sound_clean.
    + unfold selection_in_notes. destruct ns as [|n ns]; simpl; [exact I|].
      exists n. split; [left; reflexivity | reflexivity].
    + destruct (bool_decide _ && _); reflexivity.
  - intros [= <-]. apply selection_sound_clean; [exact I | reflexivity].
Qed.

(** X13. In every state the page can be in, [currentNoteId] is null or the
    id of a note of [notes] (so nothing is selected in an empty collection),
    and when [dirty] is set there is a current note the unsaved edits
    belong to. *)
Theorem selection_stays_in_the_collection (s : State) :
  reachable env s ->
  selection_in_notes s /\
  (dirty s = true -> currentNote s <> None) /\
  (notes s = [] -> currentNoteId s = None).
Proof.
  intros Hr.
  assert (Hinv : selection_sound s).
  { induction Hr as [item s Hm | s ev Hr IH Hoff].
    - destruct (flushJobs_frame env s) as (Hn & Hc & Hd).
      apply (selection_sound_ext s _ Hn Hc Hd), (mounted_selection_sound item s Hm).
    - unfold step, dispatch.
      destruct (flushJobs_frame env (handler env ev s)) as (Hn & Hc & Hd).
      apply (selection_sound_ext _ _ Hn Hc Hd), (handler_selection_sound ev s IH Hoff). }
  destruct Hinv as [Hsel Hdirty]. split; [exact Hsel|]. split; [exact Hdirty|].
  intros Hempty. unfold selection_in_notes in Hsel.
  destruct (currentNoteId s) as [i|]; [|reflexivity].
  destruct Hsel as (n & Hin & _). rewrite Hempty in Hin. destruct Hin.
Qed.

End Invariant.

Lemma selection_stays_in_the_collection_witness :
  selection_in_notes
    (step browser (ClickDelete true (id (new_note create_1)))
       (step browser (ClickAdd create_1)
          (flushJobs browser (trigger browser (set_notes [] (setup None)))))).
Proof.
  refine (proj1 (selection_stays_in_the_collection browser _ _)).
  apply reach_step; [|reflexivity].
  apply reach_step; [|reflexivity].
  apply (reach_mounted browser None). reflexivity.
Defined.

(** ** The stored text *)

(** X14. The text written to the store determines the collection: two
    collections with the same serialisation are equal. *)
Theorem stringify_determines_the_notes (ns ns' : list Note) :
  JSON_stringify ns = JSON_stringify ns' -> ns = ns'.
Proof.
  intros E.
  pose proof (JSONFacts.parse_stringify ns) as H1.
  pose proof (JSONFacts.parse_stringify ns') as H2.
  rewrite E in H1. rewrite H1 in H2.
  assert (Hv : Notes_value ns = Notes_value ns') by congruence.
  pose proof (as_Notes_value ns) as A1. pose proof (as_Notes_value ns') as A2.
  rewrite Hv in A1. rewrite A1 in A2. injection A2 as A2. exact A2.
Qed.

Lemma stringify_determines_the_notes_witness : [note_a; note_b] = [note_a; note_b].
Proof.
  exact (stringify_determines_the_notes [note_a; note_b] [note_a; note_b] eq_refl).
Defined.

(** ** The time component of an id *)

Lemma digit36_value_digit (d : N) : d < 36 -> digit36_value (digit36 d) = d.
Proof.
  intros H. unfold digit36, digit36_value.
  destruct (N.ltb_spec d 10).
  - replace (48 + d <? 58) with true by (symmetry; apply N.ltb_lt; lia). lia.
  - replace (87 + d <? 58) with false by (symmetry; apply N.ltb_ge; lia). lia.
Qed.

Lemma digit36_not_minus (d : N) : digit36 d <> 45.
Proof. unfold digit36. destruct (d <? 10); lia. Qed.

Lemma value36_snoc (digits : jsstring) (c : N) :
  value36 (digits ++ [c]) = value36 digits * 36 + digit36_value c.
Proof. unfold value36. rewrite fold_left_app. reflexivity. Qed.

Lemma radix36_value (fuel : nat) (n : N) (acc : jsstring) :
  n < 36 ^ N.of_nat (S fuel) ->
  exists (c : N) (digits : jsstring),
    radix36 fuel n acc = c :: digits ++ acc /\ c <> 45 /\ value36 (c :: digits) = n.
Proof.
  revert n acc. induction fuel as [|fuel IH]; intros n acc Hn.
  - exists (digit36 (n mod 36)), []. change (36 ^ N.of_nat 1) with 36 in Hn.
    split; [reflexivity|]. split; [apply digit36_not_minus|].
    unfold value36. simpl. rewrite digit36_value_digit by (apply N.mod_lt; lia).
    apply N.mod_small. exact Hn.
  - cbn [radix36]. destruct (N.eqb_spec (n / 36) 0) as [Hz|Hnz].
    + exists (digit36 (n mod 36)), []. split; [reflexivity|].
      split; [apply digit36_not_minus|].
      unfold value36. simpl. rewrite digit36_value_digit by (apply N.mod_lt; lia).
      pose proof (N.div_mod n 36 ltac:(lia)) as Hdm. lia.
    + assert (Hq : n / 36 < 36 ^ N.of_nat (S fuel)).
      { apply N.Div0.div_lt_upper_bound.
        rewrite <- N.pow_succ_r', <- Nat2N.inj_succ. exact Hn. }
      destruct (IH (n / 36) (digit36 (n mod 36) :: acc) Hq) as (c & ds & E & Hc & Hv).
      exists c, (ds ++ [digit36 (n mod 36)]).
      split; [rewrite E, <- app_assoc; reflexivity|]. split; [exact Hc|].
      rewrite app_comm_cons, value36_snoc, Hv.
      rewrite digit36_value_digit by (apply N.mod_lt; lia).
      pose proof (N.div_mod n 36 ltac:(lia)) as Hdm. lia.
Qed.

Lemma pos_below_pow2_size (p : positive) : Npos p < 2 ^ N.of_nat (Pos.size_nat p).
Proof.
  induction p as [p IH | p IH |]; cbn [Pos.size_nat];
    rewrite ?Nat2N.inj_succ, ?N.pow_succ_r'; [lia | lia | reflexivity].
Qed.

Lemma pos_below_pow36 (p : positive) : Npos p < 36 ^ N.of_nat (S (Pos.size_nat p)).
Proof.
  pose proof (pos_below_pow2_size p) as H.
  assert (H2 : 2 ^ N.of_nat (Pos.size_nat p) <= 36 ^ N.of_nat (Pos.size_nat p))
    by (apply N.pow_le_mono_l; lia).
  assert (H3 : 36 ^ N.of_nat (Pos.size_nat p) <= 36 ^ N.of_nat (S (Pos.size_nat p)))
    by (apply N.pow_le_mono_r; lia).
  lia.
Qed.

Lemma read36_unsigned (c : N) (digits : jsstring) :
  c <> 45 -> read36 (c :: digits) = Z.of_N (value36 (c :: digits)).
Proof.
  intros Hc. unfold read36. destruct c as [|p]; [reflexivity|].
  do 6 (try (destruct p as [p|p|]; try reflexivity)). congruence.
Qed.

(** X15. The time component of an id can be read back: the base-36 text
    that [createNewNote] writes for a clock reading denotes that reading, so
    two readings that differ give different texts, and two ids made with
    the same random part are equal only when the clock readings are. *)
Theorem id_time_component_reads_back :
  (forall t : Z, read36 (toString36 t) = t) /\
  (forall t t' : Z, toString36 t = toString36 t' -> t = t') /\
  (forall c c' : CreateInputs,
     random c = random c' -> id (new_note c) = id (new_note c') ->
     now_id c = now_id c').
Proof.
  assert (Hback : forall t : Z, read36 (toString36 t) = t).
  { intros [|p|p]; [reflexivity| |].
    - simpl. destruct (radix36_value (Pos.size_nat p) (Npos p) [] (pos_below_pow36 p))
        as (c & ds & E & Hc & Hv).
      rewrite E, app_nil_r, (read36_unsigned c ds Hc), Hv. reflexivity.
    - simpl. destruct (radix36_value (Pos.size_nat p) (Npos p) [] (pos_below_pow36 p))
        as (c & ds & E & Hc & Hv).
      rewrite E, app_nil_r. unfold read36. rewrite Hv. reflexivity. }
  assert (Hinj : forall t t' : Z, toString36 t = toString36 t' -> t = t').
  { intros t t' E. rewrite <- (Hback t), <- (Hback t'), E. reflexivity. }
  split; [exact Hback|]. split; [exact Hinj|].
  intros c c' Hr E. simpl in E. rewrite Hr in E.
  apply app_inv_tail in E. apply Hinj. exact E.
Qed.

(** ** Reloading *)


